(** * Syncthing-Recovery: the backup selector and the recovery loop

    A shallow embedding of [recovery.py].  The file follows the source from
    the leaves up:

    - [Str]: the methods of Python's [str] the program calls;
    - [os_path]: the functions of [posixpath] / [genericpath] it calls;
    - [datetime]: naive date-times, their comparison and [strptime] for the
      one format the program reads, ['%Y%m%d-%H%M%S'];
    - [split_extension], [get_backup_file_info]: the pure core;
    - [find_and_copy_backup]: the loop over the original files, written in
      a state-and-exception monad over an abstract file system that records
      every call the loop makes. *)

From Stdlib Require Import ZArith List String Ascii Bool Lia Permutation.
Import ListNotations.

Local Open Scope string_scope.
Local Open Scope Z_scope.

(* ===================================================================== *)
(** ** Python strings *)
(* ===================================================================== *)

(** A string here is a sequence of characters with code points 0 to 255;
    file names with other characters are outside this model. *)

Module Str.

(** [s[:i]] for [0 <= i]. *)
Fixpoint take (i : nat) (s : string) : string :=
  match i, s with
  | O, _ => EmptyString
  | S _, EmptyString => EmptyString
  | S i', String c s' => String c (take i' s')
  end.

(** [s[i:]] for [0 <= i]. *)
Fixpoint drop (i : nat) (s : string) : string :=
  match i, s with
  | O, _ => s
  | S _, EmptyString => EmptyString
  | S i', String _ s' => drop i' s'
  end.

(** [s[i:i+1]]: the one-character slice, empty when [i] is out of range. *)
Definition slice1 (i : nat) (s : string) : string := take 1 (drop i s).

Fixpoint rfind_from (c : ascii) (s : string) (i acc : Z) : Z :=
  match s with
  | EmptyString => acc
  | String a s' => rfind_from c s' (i + 1) (if Ascii.eqb a c then i else acc)
  end.

(** [s.rfind(c)] for a one-character [c]: the highest index holding [c],
    or [-1]. *)
Definition rfind (c : ascii) (s : string) : Z := rfind_from c s 0 (-1).

(** [s.startswith(p)]. *)
Definition startswith (s p : string) : bool := String.prefix p s.

(** [s.endswith(p)]. *)
Definition endswith (s p : string) : bool :=
  let n := String.length s in
  let m := String.length p in
  if (m <=? n)%nat then String.eqb (drop (n - m) s) p else false.

(** [s.split(c)] for a one-character separator: never an empty list. *)
Fixpoint split (c : ascii) (s : string) : list string :=
  match s with
  | EmptyString => [EmptyString]
  | String a s' =>
      if Ascii.eqb a c then EmptyString :: split c s'
      else match split c s' with
           | [] => [String a EmptyString]
           | w :: ws => String a w :: ws
           end
  end.

(** [s.rstrip(c)] for a one-character [c]. *)
Fixpoint rstrip (c : ascii) (s : string) : string :=
  match s with
  | EmptyString => EmptyString
  | String a s' =>
      match rstrip c s' with
      | EmptyString => if Ascii.eqb a c then EmptyString else String a EmptyString
      | r => String a r
      end
  end.

(** [s == c * len(s)]: every character of [s] is [c]. *)
Fixpoint all_eq (c : ascii) (s : string) : bool :=
  match s with
  | EmptyString => true
  | String a s' => Ascii.eqb a c && all_eq c s'
  end.

(** [xs[-1]] of a list of strings (the program only indexes the result of
    [split], which is never empty). *)
Definition last_item (xs : list string) : string := List.last xs EmptyString.

End Str.

(* ===================================================================== *)
(** ** [os.path] (posixpath, genericpath) *)
(* ===================================================================== *)

Module os_path.

Definition sep : ascii := "/"%char.
Definition extsep : ascii := "."%char.

(** The [while] loop of [genericpath._splitext]: [Some] is the [return]
    inside the loop, [None] is falling out of it.  [fuel] is the number of
    iterations left, [dotIndex - filenameIndex]. *)
Fixpoint splitext_loop (p : string) (extsep : ascii) (dotIndex : Z)
         (fuel : nat) (filenameIndex : Z) : option (string * string) :=
  match fuel with
  | O => None
  | S fuel' =>
      if negb (String.eqb (Str.slice1 (Z.to_nat filenameIndex) p)
                          (String extsep EmptyString))
      then Some (Str.take (Z.to_nat dotIndex) p, Str.drop (Z.to_nat dotIndex) p)
      else splitext_loop p extsep dotIndex fuel' (filenameIndex + 1)
  end.

(** [genericpath._splitext(p, sep, altsep, extsep)]. *)
Definition _splitext (p : string) (sep : ascii) (altsep : option ascii)
           (extsep : ascii) : string * string :=
  let sepIndex := Str.rfind sep p in
  let sepIndex :=
    match altsep with
    | Some a => Z.max sepIndex (Str.rfind a p)
    | None => sepIndex
    end in
  let dotIndex := Str.rfind extsep p in
  let fallthrough := (p, Str.take 0 p) in
  if dotIndex >? sepIndex then
    let filenameIndex := sepIndex + 1 in
    match splitext_loop p extsep dotIndex
                        (Z.to_nat (dotIndex - filenameIndex)) filenameIndex with
    | Some r => r
    | None => fallthrough
    end
  else fallthrough.

(** [posixpath.splitext]. *)
Definition splitext (p : string) : string * string :=
  _splitext p sep None extsep.

(** [posixpath.basename]. *)
Definition basename (p : string) : string :=
  let i := Str.rfind sep p + 1 in
  Str.drop (Z.to_nat i) p.

(** [posixpath.dirname]. *)
Definition dirname (p : string) : string :=
  let i := Str.rfind sep p + 1 in
  let head := Str.take (Z.to_nat i) p in
  if negb (String.eqb head EmptyString) && negb (Str.all_eq sep head)
  then Str.rstrip sep head
  else head.

(** One round of the loop of [posixpath.join]. *)
Definition join_step (path b : string) : string :=
  if Str.startswith b (String sep EmptyString) then b
  else if String.eqb path EmptyString || Str.endswith path (String sep EmptyString)
       then path ++ b
       else path ++ String sep b.

(** [posixpath.join(a, *p)]. *)
Definition join (a : string) (p : list string) : string :=
  fold_left join_step p a.

End os_path.

(* ===================================================================== *)
(** ** The filename codec: [split_extension] *)
(* ===================================================================== *)

(** [split_extension]: [os.path.splitext], with name and extension swapped
    for names such as ['.gitignore']. *)
Definition split_extension (filename : string) : string * string :=
  let '(name, ext) := os_path.splitext filename in
  if Str.startswith name "." && (String.length ext =? 0)%nat
  then (EmptyString, name)
  else (name, ext).

(* ===================================================================== *)
(** ** Exceptions *)
(* ===================================================================== *)

(** The exceptions that can travel through the program: [ValueError] from
    [datetime.strptime], [OSError] from the file system calls.  Both are
    subclasses of [Exception]. *)
Inductive Exception : Type :=
| ValueError (msg : string)
| OSError (msg : string).

(* ===================================================================== *)
(** ** Naive date-times *)
(* ===================================================================== *)

Module datetime.

(** A [datetime.datetime] without time zone.  Microseconds are left out:
    the one format the program parses has no fraction, so they are always
    zero. *)
Record t : Type := make {
  year : Z; month : Z; day : Z;
  hour : Z; minute : Z; second : Z
}.

(** The tuple [datetime._cmp] compares. *)
Definition fields (a : t) : list Z :=
  [year a; month a; day a; hour a; minute a; second a].

(** Python's ordering of tuples of integers. *)
Fixpoint tuple_cmp (x y : list Z) : comparison :=
  match x, y with
  | [], [] => Eq
  | [], _ :: _ => Lt
  | _ :: _, [] => Gt
  | a :: x', b :: y' =>
      match Z.compare a b with
      | Eq => tuple_cmp x' y'
      | c => c
      end
  end.

Definition cmp (a b : t) : comparison := tuple_cmp (fields a) (fields b).

(** [a > b] *)
Definition gt (a b : t) : bool :=
  match cmp a b with Gt => true | _ => false end.

(** [a <= b] *)
Definition le (a b : t) : bool :=
  match cmp a b with Gt => false | _ => true end.

(** *** [strptime] for ['%Y%m%d-%H%M%S']

    [_strptime] turns the format into a regular expression, one named
    group per directive, and takes the first match Python's backtracking
    matcher finds.  A matcher here returns every way to match a prefix of
    its input, in the order the backtracking matcher tries them; the head
    of the list is the match [re.match] returns. *)

Definition rx (A : Type) : Type := string -> list (A * string).

Definition rx_ret {A} (a : A) : rx A := fun s => [(a, s)].

Definition rx_bind {A B} (p : rx A) (k : A -> rx B) : rx B :=
  fun s => flat_map (fun '(a, r) => k a r) (p s).

Definition rx_alt {A} (p q : rx A) : rx A := fun s => (p s ++ q s)%list.

(** [[lo-hi]] on decimal digits; the value is the digit.  [\d] is
    [rx_digit 0 9]: Python's [\d] and [int] take every Unicode decimal
    digit, and among the characters of this model those are ['0'] to
    ['9']. *)
Definition rx_digit (lo hi : Z) : rx Z :=
  fun s =>
    match s with
    | String c r =>
        let v := Z.of_nat (nat_of_ascii c) - 48 in
        if (0 <=? v) && (v <=? 9) && (lo <=? v) && (v <=? hi)
        then [(v, r)] else []
    | EmptyString => []
    end.

Definition rx_char (c : ascii) : rx unit :=
  fun s =>
    match s with
    | String a r => if Ascii.eqb a c then [(tt, r)] else []
    | EmptyString => []
    end.

(** Two digit classes in a row; the value is [int] of the two characters. *)
Definition rx_two (a b : rx Z) : rx Z :=
  rx_bind a (fun x => rx_bind b (fun y => rx_ret (10 * x + y))).

Definition rx_any : rx Z := rx_digit 0 9.

(** [%Y]: [\d\d\d\d] *)
Definition rx_Y : rx Z :=
  rx_bind (rx_two rx_any rx_any) (fun hi =>
  rx_bind (rx_two rx_any rx_any) (fun lo => rx_ret (100 * hi + lo))).

(** [%m]: [1[0-2]|0[1-9]|[1-9]] *)
Definition rx_m : rx Z :=
  rx_alt (rx_two (rx_digit 1 1) (rx_digit 0 2))
 (rx_alt (rx_two (rx_digit 0 0) (rx_digit 1 9))
         (rx_digit 1 9)).

(** [%d]: [3[0-1]|[1-2]\d|0[1-9]|[1-9]| [1-9]]; [int] ignores the blank of
    the last alternative. *)
Definition rx_d : rx Z :=
  rx_alt (rx_two (rx_digit 3 3) (rx_digit 0 1))
 (rx_alt (rx_two (rx_digit 1 2) rx_any)
 (rx_alt (rx_two (rx_digit 0 0) (rx_digit 1 9))
 (rx_alt (rx_digit 1 9)
         (rx_bind (rx_char " ") (fun _ => rx_digit 1 9))))).

(** [%H]: [2[0-3]|[0-1]\d|\d] *)
Definition rx_H : rx Z :=
  rx_alt (rx_two (rx_digit 2 2) (rx_digit 0 3))
 (rx_alt (rx_two (rx_digit 0 1) rx_any)
         rx_any).

(** [%M]: [[0-5]\d|\d] *)
Definition rx_M : rx Z :=
  rx_alt (rx_two (rx_digit 0 5) rx_any) rx_any.

(** [%S]: [6[0-1]|[0-5]\d|\d] *)
Definition rx_S : rx Z :=
  rx_alt (rx_two (rx_digit 6 6) (rx_digit 0 1))
 (rx_alt (rx_two (rx_digit 0 5) rx_any)
         rx_any).

(** The regular expression of ['%Y%m%d-%H%M%S']. *)
Definition format_regex : rx t :=
  rx_bind rx_Y (fun y =>
  rx_bind rx_m (fun m =>
  rx_bind rx_d (fun d =>
  rx_bind (rx_char "-") (fun _ =>
  rx_bind rx_H (fun h =>
  rx_bind rx_M (fun mi =>
  rx_bind rx_S (fun s => rx_ret (make y m d h mi s)))))))).

Definition _is_leap (y : Z) : bool :=
  (y mod 4 =? 0) && (negb (y mod 100 =? 0) || (y mod 400 =? 0)).

Definition _days_in_month (y m : Z) : Z :=
  if (m =? 2) && _is_leap y then 29
  else nth (Z.to_nat m) [-1; 31; 28; 31; 30; 31; 30; 31; 31; 30; 31; 30; 31] (-1).

(** The range checks of [date(year, month, day)] and of
    [datetime(..., hour, minute, second)]. *)
Definition check_fields (a : t) : bool :=
  (1 <=? year a) && (year a <=? 9999) &&
  (1 <=? month a) && (month a <=? 12) &&
  (1 <=? day a) && (day a <=? _days_in_month (year a) (month a)) &&
  (0 <=? hour a) && (hour a <=? 23) &&
  (0 <=? minute a) && (minute a <=? 59) &&
  (0 <=? second a) && (second a <=? 59).

(** [datetime.strptime(data_string, '%Y%m%d-%H%M%S')]. *)
Definition strptime (data_string : string) : Exception + t :=
  match format_regex data_string with
  | [] => inl (ValueError "time data does not match format")
  | (found, rest) :: _ =>
      if negb (String.eqb rest EmptyString)
      then inl (ValueError "unconverted data remains")
      else if check_fields found then inr found
      else inl (ValueError "out of range")
  end.

(** *** [datetime + timedelta] *)

(** A normalised [timedelta]: days, and seconds in [0, 86400).  No
    microseconds, as for [t]. *)
Record timedelta : Type := make_delta { days : Z; seconds : Z }.

(** [timedelta(hours=h)] *)
Definition timedelta_hours (h : Z) : timedelta :=
  make_delta ((h * 3600) / 86400) ((h * 3600) mod 86400).

Definition _days_before_year (y : Z) : Z :=
  let y := y - 1 in y * 365 + y / 4 - y / 100 + y / 400.

Definition _days_before_month (y m : Z) : Z :=
  nth (Z.to_nat m) [-1; 0; 31; 59; 90; 120; 151; 181; 212; 243; 273; 304; 334] (-1)
  + (if (m >? 2) && _is_leap y then 1 else 0).

(** [date.toordinal]: day 1 is 0001-01-01. *)
Definition _ymd2ord (y m d : Z) : Z :=
  _days_before_year y + _days_before_month y m + d.

(** [date.fromordinal] *)
Definition _ord2ymd (n : Z) : Z * Z * Z :=
  let n := n - 1 in
  let n400 := n / 146097 in
  let n := n mod 146097 in
  let year := n400 * 400 + 1 in
  let n100 := n / 36524 in
  let n := n mod 36524 in
  let n4 := n / 1461 in
  let n := n mod 1461 in
  let n1 := n / 365 in
  let n := n mod 365 in
  let year := year + n100 * 100 + n4 * 4 + n1 in
  if (n1 =? 4) || (n100 =? 4) then (year - 1, 12, 31)
  else
    let leapyear := (n1 =? 3) && (negb (n4 =? 24) || (n100 =? 3)) in
    let month := Z.shiftr (n + 50) 5 in
    let preceding :=
      nth (Z.to_nat month)
          [-1; 0; 31; 59; 90; 120; 151; 181; 212; 243; 273; 304; 334] (-1)
      + (if (month >? 2) && leapyear then 1 else 0) in
    if preceding >? n then
      let month := month - 1 in
      let preceding :=
        preceding
        - (nth (Z.to_nat month)
               [-1; 31; 28; 31; 30; 31; 30; 31; 31; 30; 31; 30; 31] (-1)
           + (if (month =? 2) && leapyear then 1 else 0)) in
      (year, month, n - preceding + 1)
    else (year, month, n - preceding + 1).

Definition _MAXORDINAL : Z := 3652059.

(** [a + d]; [None] is [OverflowError]. *)
Definition add (a : t) (d : timedelta) : option t :=
  let total := hour a * 3600 + minute a * 60 + second a + seconds d in
  let delta_days := _ymd2ord (year a) (month a) (day a) + days d + total / 86400 in
  let delta_seconds := total mod 86400 in
  let hour := delta_seconds / 3600 in
  let rem := delta_seconds mod 3600 in
  if (0 <? delta_days) && (delta_days <=? _MAXORDINAL) then
    let '(y, m, dd) := _ord2ymd delta_days in
    Some (make y m dd hour (rem / 60) (rem mod 60))
  else None.

End datetime.

(* ===================================================================== *)
(** ** The revision selector: [get_backup_file_info] *)
(* ===================================================================== *)

(** [BackupFileInfo]: what is known about the backups of one original
    file.  Fields that start as [None] are options. *)
Record BackupFileInfo : Type := {
  count : Z;
  latest_time : option datetime.t;
  latest_file : option string;
  latest_outside_limit : bool;
  backup_file : option string;
  backup_time : option datetime.t
}.

(** [BackupFileInfo()] with [count] set: the first two statements of
    [get_backup_file_info]. *)
Definition BackupFileInfo_init (backup_files : list string) : BackupFileInfo :=
  {| count := Z.of_nat (List.length backup_files);
     latest_time := None; latest_file := None; latest_outside_limit := false;
     backup_file := None; backup_time := None |}.

(** The timestamp of a backup file name: the text after the last ['~'] of
    the name without its extension, read by [strptime]. *)
Definition parse_timestamp (file : string) : Exception + datetime.t :=
  let '(basename, ext) := split_extension file in
  let timestamp_str := Str.last_item (Str.split "~" basename) in
  datetime.strptime timestamp_str.

(** [current is None or timestamp > current] *)
Definition is_newer (timestamp : datetime.t) (current : option datetime.t) : bool :=
  match current with
  | None => true
  | Some c => datetime.gt timestamp c
  end.

Section Selector.

(** The value of [REFERENCE_TIME + TIME_LIMIT], two module constants the
    user is told to set. *)
Variable cutoff : datetime.t.

(** The two [if] statements of the loop body, once the timestamp is
    parsed. *)
Definition select_step (bak : BackupFileInfo) (file : string)
           (timestamp : datetime.t) : BackupFileInfo :=
  let is_inside_time_limit := datetime.le timestamp cutoff in
  let bak :=
    if is_newer timestamp (latest_time bak)
    then {| count := count bak;
            latest_time := Some timestamp;
            latest_file := Some file;
            latest_outside_limit := negb is_inside_time_limit;
            backup_file := backup_file bak;
            backup_time := backup_time bak |}
    else bak in
  if is_inside_time_limit
  then if is_newer timestamp (backup_time bak)
       then {| count := count bak;
               latest_time := latest_time bak;
               latest_file := latest_file bak;
               latest_outside_limit := latest_outside_limit bak;
               backup_file := Some file;
               backup_time := Some timestamp |}
       else bak
  else bak.

(** One round of the [for] loop; [strptime]'s [ValueError] is not caught. *)
Definition backup_info_body (bak : BackupFileInfo) (file : string)
  : Exception + BackupFileInfo :=
  match parse_timestamp file with
  | inl e => inl e
  | inr timestamp => inr (select_step bak file timestamp)
  end.

Fixpoint backup_info_loop (backup_files : list string) (bak : BackupFileInfo)
  : Exception + BackupFileInfo :=
  match backup_files with
  | [] => inr bak
  | file :: rest =>
      match backup_info_body bak file with
      | inl e => inl e
      | inr bak' => backup_info_loop rest bak'
      end
  end.

Definition get_backup_file_info (backup_files : list string)
  : Exception + BackupFileInfo :=
  backup_info_loop backup_files (BackupFileInfo_init backup_files).

End Selector.

(** The constants of the source.  [REFERENCE_TIME] is what [strptime] reads
    from ['20240714-180000'], [TIME_LIMIT] is [timedelta(hours=3)], and
    [source_cutoff] is the value of [REFERENCE_TIME + TIME_LIMIT]. *)
Definition REFERENCE_TIME : datetime.t := datetime.make 2024 7 14 18 0 0.
Definition TIME_LIMIT : datetime.timedelta := datetime.timedelta_hours 3.
Definition source_cutoff : datetime.t := datetime.make 2024 7 14 21 0 0.

(* ===================================================================== *)
(** ** The recovery loop: [find_and_copy_backup] *)
(* ===================================================================== *)

(** A row of [recovered_files]: original file name, backup file name,
    backup time, number of backups, is the last backup outside the limit,
    last backup found, its time. *)
Definition RecoveredRow : Type :=
  (string * option string * option datetime.t * Z * bool
   * option string * option datetime.t)%type.

Definition row_original (row : RecoveredRow) : string :=
  let '(orig, _, _, _, _, _, _) := row in orig.

Definition row_outside_limit (row : RecoveredRow) : bool :=
  let '(_, _, _, _, out_limit, _, _) := row in out_limit.

Record FileRecoveryResult : Type := {
  total_original : Z;
  total_missing : Z;
  total_recovered : Z;
  total_possibly_corrupted : Z;
  earliest_file_used : option string;
  earliest_time_used : option datetime.t;
  latest_file_used : option string;
  latest_time_used : option datetime.t;
  missing_files : list string;
  recovered_files : list RecoveredRow;
  possibly_corrupted_files : list string
}.

(** [FileRecoveryResult()] *)
Definition FileRecoveryResult_init : FileRecoveryResult :=
  {| total_original := 0; total_missing := 0; total_recovered := 0;
     total_possibly_corrupted := 0;
     earliest_file_used := None; earliest_time_used := None;
     latest_file_used := None; latest_time_used := None;
     missing_files := []; recovered_files := [];
     possibly_corrupted_files := [] |}.

(** [results.total_original = n] *)
Definition set_total_original (n : Z) (r : FileRecoveryResult) : FileRecoveryResult :=
  {| total_original := n;
     total_missing := total_missing r;
     total_recovered := total_recovered r;
     total_possibly_corrupted := total_possibly_corrupted r;
     earliest_file_used := earliest_file_used r;
     earliest_time_used := earliest_time_used r;
     latest_file_used := latest_file_used r;
     latest_time_used := latest_time_used r;
     missing_files := missing_files r;
     recovered_files := recovered_files r;
     possibly_corrupted_files := possibly_corrupted_files r |}.

(** [results.missing_files.append(file)] *)
Definition append_missing (file : string) (r : FileRecoveryResult) : FileRecoveryResult :=
  {| total_original := total_original r;
     total_missing := total_missing r;
     total_recovered := total_recovered r;
     total_possibly_corrupted := total_possibly_corrupted r;
     earliest_file_used := earliest_file_used r;
     earliest_time_used := earliest_time_used r;
     latest_file_used := latest_file_used r;
     latest_time_used := latest_time_used r;
     missing_files := (missing_files r ++ [file])%list;
     recovered_files := recovered_files r;
     possibly_corrupted_files := possibly_corrupted_files r |}.

(** [results.recovered_files.append(row)] *)
Definition append_recovered (row : RecoveredRow) (r : FileRecoveryResult) : FileRecoveryResult :=
  {| total_original := total_original r;
     total_missing := total_missing r;
     total_recovered := total_recovered r;
     total_possibly_corrupted := total_possibly_corrupted r;
     earliest_file_used := earliest_file_used r;
     earliest_time_used := earliest_time_used r;
     latest_file_used := latest_file_used r;
     latest_time_used := latest_time_used r;
     missing_files := missing_files r;
     recovered_files := (recovered_files r ++ [row])%list;
     possibly_corrupted_files := possibly_corrupted_files r |}.

(** The original file names of the recovered rows. *)
Definition recovered_names (r : FileRecoveryResult) : list string :=
  map row_original (recovered_files r).

(** *** The file system and the calls made on it *)

(** What the loop asks of the operating system.  [exists] and [listdir]
    read the world; [makedirs] (with [exist_ok=True]) and [copy2] may change
    it, also when they raise. *)
Record FileSystem (World : Type) : Type := {
  fs_exists : string -> World -> bool;
  fs_listdir : string -> World -> Exception + list string;
  fs_makedirs : string -> World -> (Exception + unit) * World;
  fs_copy2 : string -> string -> World -> (Exception + unit) * World
}.

Arguments fs_exists {World} _ _ _.
Arguments fs_listdir {World} _ _ _.
Arguments fs_makedirs {World} _ _ _.
Arguments fs_copy2 {World} _ _ _ _.

(** The module constants the loop reads. *)
Record Config : Type := {
  BACKUP_DIR : string;
  RECOVERY_DIR : string;
  CUTOFF : datetime.t  (* REFERENCE_TIME + TIME_LIMIT *)
}.

(** Every call that leaves the loop, in order. *)
Inductive Call : Type :=
| CallExists (path : string)
| CallListdir (path : string)
| CallMakedirs (path : string)
| CallCopy2 (src dst : string)
| CallBreakpoint
| CallLogError (msg : string).

Record State (World : Type) : Type := {
  world : World;
  calls : list Call
}.

Arguments world {World} _.
Arguments calls {World} _.

(** Computations that read and change the state and may raise. *)
Definition M (World A : Type) : Type :=
  State World -> (Exception + A) * State World.

Definition ret {World A} (a : A) : M World A := fun s => (inr a, s).

Definition raise {World A} (e : Exception) : M World A := fun s => (inl e, s).

Definition bind {World A B} (m : M World A) (k : A -> M World B) : M World B :=
  fun s =>
    match m s with
    | (inl e, s') => (inl e, s')
    | (inr a, s') => k a s'
    end.

(** [try: m  except Exception: handler] *)
Definition try_except {World A} (m : M World A) (handler : Exception -> M World A)
  : M World A :=
  fun s =>
    match m s with
    | (inl e, s') => handler e s'
    | (inr a, s') => (inr a, s')
    end.

Definition lift {World A} (r : Exception + A) : M World A :=
  fun s => (r, s).

Definition log_call {World} (c : Call) : M World unit :=
  fun s => (inr tt, {| world := world s; calls := (calls s ++ [c])%list |}).

Notation "x <- m ;; k" := (bind m (fun x => k))
  (at level 61, m at next level, right associativity).
Notation "m ;;; k" := (bind m (fun _ => k))
  (at level 61, right associativity).

Section Orchestrator.

Context {World : Type}.
Variable fs : FileSystem World.
Variable cfg : Config.

(** [os.path.exists(path)] *)
Definition os_path_exists (path : string) : M World bool :=
  fun s =>
    (inr (fs_exists fs path (world s)),
     {| world := world s; calls := (calls s ++ [CallExists path])%list |}).

(** [os.listdir(path)] *)
Definition os_listdir (path : string) : M World (list string) :=
  fun s =>
    (fs_listdir fs path (world s),
     {| world := world s; calls := (calls s ++ [CallListdir path])%list |}).

(** [ensure_directory_exists]: [os.makedirs(directory, exist_ok=True)] *)
Definition ensure_directory_exists (directory : string) : M World unit :=
  fun s =>
    let '(r, w) := fs_makedirs fs directory (world s) in
    (r, {| world := w; calls := (calls s ++ [CallMakedirs directory])%list |}).

(** [shutil.copy2(src, dst)] *)
Definition shutil_copy2 (src dst : string) : M World unit :=
  fun s =>
    let '(r, w) := fs_copy2 fs src dst (world s) in
    (r, {| world := w; calls := (calls s ++ [CallCopy2 src dst])%list |}).

(** [breakpoint()]: the debugger is entered and left; nothing else
    changes. *)
Definition breakpoint : M World unit := log_call CallBreakpoint.

(** [logger.error(msg)] *)
Definition logger_error (msg : string) : M World unit :=
  log_call (CallLogError msg).

(** [f.startswith(prefix_pattern) and f.endswith(suffix_pattern)] *)
Definition matches_backup (prefix_pattern suffix_pattern f : string) : bool :=
  Str.startswith f prefix_pattern && Str.endswith f suffix_pattern.

(** The body of the [for] loop of [find_and_copy_backup], for one [file].
    Each [continue] is the end of its branch.  The progress line printed
    at the top of the body is not part of the result and is left out. *)
Definition loop_body (results : FileRecoveryResult) (file : string)
  : M World FileRecoveryResult :=
  let file_dir := os_path.dirname file in
  let file_name := os_path.basename file in
  let '(prefix_pattern, suffix_pattern) := split_extension file_name in
  let prefix_pattern := prefix_pattern ++ "~" in
  let backup_dir_path := os_path.join (BACKUP_DIR cfg) [file_dir] in
  present <- os_path_exists backup_dir_path ;;
  if negb present then
    ret (append_missing file results)
  else
    entries <- os_listdir backup_dir_path ;;
    let backup_files :=
      filter (matches_backup prefix_pattern suffix_pattern) entries in
    match backup_files with
    | [] => ret (append_missing file results)
    | _ :: _ =>
        backup_info <- lift (get_backup_file_info (CUTOFF cfg) backup_files) ;;
        match backup_file backup_info with
        | None =>
            breakpoint ;;;
            ret (append_missing file results)
        | Some chosen =>
            let backup_path :=
              os_path.join (BACKUP_DIR cfg) [file_dir; chosen] in
            let recovery_path := os_path.join (RECOVERY_DIR cfg) [file] in
            let recovery_dir := os_path.dirname recovery_path in
            ensure_directory_exists recovery_dir ;;;
            try_except
              (shutil_copy2 backup_path recovery_path ;;;
               ret (append_recovered
                      (file,
                       backup_file backup_info,
                       backup_time backup_info,
                       count backup_info,
                       latest_outside_limit backup_info,
                       latest_file backup_info,
                       latest_time backup_info)
                      results))
              (fun _ =>
                 logger_error
                   ("Error copying " ++ backup_path ++ " to "
                                     ++ recovery_path ++ ".") ;;;
                 ret results)
        end
    end.

(** The [for] loop from the files that are left. *)
Fixpoint for_each_file (files : list string) (results : FileRecoveryResult)
  : M World FileRecoveryResult :=
  match files with
  | [] => ret results
  | file :: rest =>
      results' <- loop_body results file ;;
      for_each_file rest results'
  end.

(** [find_and_copy_backup(all_files, log_inline)].  [log_inline] only picks
    how the progress line is printed, so it is not a parameter here. *)
Definition find_and_copy_backup (all_files : list string)
  : M World FileRecoveryResult :=
  let results := FileRecoveryResult_init in
  let results := set_total_original (Z.of_nat (List.length all_files)) results in
  for_each_file all_files results.

End Orchestrator.

(* ===================================================================== *)
(** ** A small file system to run the loop on *)
(* ===================================================================== *)

(** Directories that exist, what each one lists, and the destinations
    [copy2] cannot write.  Copies land in the recovery tree, which the loop
    never reads back, so a successful copy leaves this view as it is. *)
Record Disk : Type := {
  disk_dirs : list string;
  disk_entries : list (string * list string);
  disk_unwritable : list string
}.

Definition str_mem (x : string) (l : list string) : bool :=
  existsb (String.eqb x) l.

Fixpoint disk_lookup (path : string) (l : list (string * list string))
  : option (list string) :=
  match l with
  | [] => None
  | (d, names) :: l' => if String.eqb d path then Some names else disk_lookup path l'
  end.

Definition disk_fs : FileSystem Disk :=
  {| fs_exists := fun path d => str_mem path (disk_dirs d);
     fs_listdir := fun path d =>
       match disk_lookup path (disk_entries d) with
       | Some names => inr names
       | None => inl (OSError "cannot list")
       end;
     fs_makedirs := fun path d =>
       (inr tt,
        {| disk_dirs := if str_mem path (disk_dirs d) then disk_dirs d
                        else (disk_dirs d ++ [path])%list;
           disk_entries := disk_entries d;
           disk_unwritable := disk_unwritable d |});
     fs_copy2 := fun src dst d =>
       if str_mem dst (disk_unwritable d)
       then (inl (OSError "cannot write"), d)
       else (inr tt, d) |}.



(** What [d] lists under [path]; nothing when it cannot be listed. *)
Definition disk_entries_at (d : Disk) (path : string) : list string :=
  match disk_lookup path (disk_entries d) with
  | Some names => names
  | None => []
  end.

Definition start {World} (w : World) : State World :=
  {| world := w; calls := [] |}.

(** The configuration of the examples: backups under [bk], recovery under
    [recovery] as in the source, the source's cut-off. *)
Definition example_cfg : Config :=
  {| BACKUP_DIR := "bk"; RECOVERY_DIR := "recovery"; CUTOFF := source_cutoff |}.

(** [bk/] holds three revisions of [notes.txt] (the scenario of the
    specification), one revision of [todo.txt] next to an entry whose
    timestamp does not parse, one revision of [old.txt] after the cut-off,
    and one of [locked.txt], whose place in the recovery tree cannot be
    written. *)
Definition example_disk : Disk :=
  {| disk_dirs := ["bk/"];
     disk_entries :=
       [("bk/", ["notes~20240714-120000.txt";
                 "notes~20240714-190000.txt";
                 "notes~20240715-030000.txt";
                 "todo~20240714-120000.txt";
                 "todo~draft.txt";
                 "old~20240801-000000.txt";
                 "locked~20240714-120000.txt"])];
     disk_unwritable := ["recovery/locked.txt"] |}.

(** The three revisions of [notes.txt], in the order [bk/] lists them, and
    what the selector should find in them. *)
Definition notes_backups : list string :=
  ["notes~20240714-120000.txt";
   "notes~20240714-190000.txt";
   "notes~20240715-030000.txt"].

Definition notes_info : BackupFileInfo :=
  {| count := 3;
     latest_time := Some (datetime.make 2024 7 15 3 0 0);
     latest_file := Some "notes~20240715-030000.txt";
     latest_outside_limit := true;
     backup_file := Some "notes~20240714-190000.txt";
     backup_time := Some (datetime.make 2024 7 14 19 0 0) |}.

(** Two revisions of [notes.txt] that carry the same timestamp. *)
Definition tied_backups : list string :=
  ["notes~20240714-120000.txt"; "notes~copy~20240714-120000.txt"].

(** What the selector finds in them: the first of the two, in both slots. *)
Definition tied_info : BackupFileInfo :=
  {| count := 2;
     latest_time := Some (datetime.make 2024 7 14 12 0 0);
     latest_file := Some "notes~20240714-120000.txt";
     latest_outside_limit := false;
     backup_file := Some "notes~20240714-120000.txt";
     backup_time := Some (datetime.make 2024 7 14 12 0 0) |}.




(* ===================================================================== *)
(** ** Vocabulary of the statements *)
(* ===================================================================== *)

(** [file], at time [ts], is the first entry of [files] that holds the
    greatest timestamp among the entries whose timestamp passes [keep]:
    every such entry before it is strictly older, every such entry after it
    is not newer. *)
Definition first_max (keep : datetime.t -> bool) (files : list string)
           (file : string) (ts : datetime.t) : Prop :=
  keep ts = true /\
  exists pre post,
    files = (pre ++ file :: post)%list /\
    parse_timestamp file = inr ts /\
    (forall g tg, In g pre -> parse_timestamp g = inr tg -> keep tg = true ->
                  datetime.gt ts tg = true) /\
    (forall g tg, In g post -> parse_timestamp g = inr tg -> keep tg = true ->
                  datetime.le tg ts = true).

Definition keep_all (_ : datetime.t) : bool := true.

Definition keep_upto (cutoff ts : datetime.t) : bool := datetime.le ts cutoff.

(** What [get_backup_file_info] knows after the files [done]: the latest
    slot holds the first of the newest entries of [done] and says whether it
    lies after the cut-off; the chosen slot holds the first of the newest
    entries up to the cut-off, and is empty only when there is none. *)
Definition latest_ok (cutoff : datetime.t) (done : list string)
           (bak : BackupFileInfo) : Prop :=
  match latest_file bak, latest_time bak with
  | Some f, Some t =>
      first_max keep_all done f t /\
      latest_outside_limit bak = negb (datetime.le t cutoff)
  | None, None => done = []
  | _, _ => False
  end.

Definition chosen_ok (cutoff : datetime.t) (done : list string)
           (bak : BackupFileInfo) : Prop :=
  match backup_file bak, backup_time bak with
  | Some f, Some t => first_max (keep_upto cutoff) done f t
  | None, None =>
      forall g tg, In g done -> parse_timestamp g = inr tg ->
                   datetime.le tg cutoff = false
  | _, _ => False
  end.

Definition selector_inv (cutoff : datetime.t) (done : list string)
           (bak : BackupFileInfo) : Prop :=
  latest_ok cutoff done bak /\ chosen_ok cutoff done bak.

(** The directory [loop_body] looks into for the backups of [file]. *)
Definition backup_dir_of (cfg : Config) (file : string) : string :=
  os_path.join (BACKUP_DIR cfg) [os_path.dirname file].

(** The entries of that directory [loop_body] keeps as backups of [file]. *)
Definition backup_files_of (file : string) (entries : list string) : list string :=
  filter (matches_backup (fst (split_extension (os_path.basename file)) ++ "~")
                         (snd (split_extension (os_path.basename file))))
         entries.

(** Where [loop_body] copies from and to, and the directory it creates. *)
Definition backup_path_of (cfg : Config) (file chosen : string) : string :=
  os_path.join (BACKUP_DIR cfg) [os_path.dirname file; chosen].

Definition recovery_path_of (cfg : Config) (file : string) : string :=
  os_path.join (RECOVERY_DIR cfg) [file].

Definition recovery_dir_of (cfg : Config) (file : string) : string :=
  os_path.dirname (recovery_path_of cfg file).

(** The row [loop_body] appends for [file] from what the selector found. *)
Definition row_of (file : string) (info : BackupFileInfo) : RecoveredRow :=
  (file, backup_file info, backup_time info, count info,
   latest_outside_limit info, latest_file info, latest_time info).

(** What the loop would decide for [file] from what [exists] and [listdir]
    answer in the world [w]: [Some true] is missing, [Some false] is a
    chosen backup to copy, [None] is an exception before any decision. *)
Definition verdict {World} (fs : FileSystem World) (cfg : Config)
           (w : World) (file : string) : option bool :=
  if negb (fs_exists fs (backup_dir_of cfg file) w) then Some true
  else
    match fs_listdir fs (backup_dir_of cfg file) w with
    | inl _ => None
    | inr entries =>
        match backup_files_of file entries with
        | [] => Some true
        | _ :: _ =>
            match get_backup_file_info (CUTOFF cfg)
                                       (backup_files_of file entries) with
            | inl _ => None
            | inr info =>
                match backup_file info with
                | None => Some true
                | Some _ => Some false
                end
            end
        end
    end.





(** The result [find_and_copy_backup] starts its loop with. *)
Definition initial_results (all_files : list string) : FileRecoveryResult :=
  set_total_original (Z.of_nat (List.length all_files)) FileRecoveryResult_init.

(** The fields of the result other than [total_original] and the three
    lists. *)
Definition untouched_fields (r : FileRecoveryResult)
  : Z * Z * Z * option string * option datetime.t
    * option string * option datetime.t :=
  (total_missing r, total_recovered r, total_possibly_corrupted r,
   earliest_file_used r, earliest_time_used r,
   latest_file_used r, latest_time_used r).

(** The state after [s] once the calls [cs] were made and the world
    became [w]. *)
Definition after {World} (s : State World) (w : World) (cs : list Call)
  : State World :=
  {| world := w; calls := (calls s ++ cs)%list |}.





(** The two revisions of [notes.txt] up to the cut-off, and what the
    selector should find in them. *)
Definition early_backups : list string :=
  ["notes~20240714-120000.txt"; "notes~20240714-190000.txt"].

Definition early_info : BackupFileInfo :=
  {| count := 2;
     latest_time := Some (datetime.make 2024 7 14 19 0 0);
     latest_file := Some "notes~20240714-190000.txt";
     latest_outside_limit := false;
     backup_file := Some "notes~20240714-190000.txt";
     backup_time := Some (datetime.make 2024 7 14 19 0 0) |}.

(** One revision, after the cut-off, and what the selector should find. *)
Definition late_backups : list string := ["old~20240801-000000.txt"].

Definition late_info : BackupFileInfo :=
  {| count := 1;
     latest_time := Some (datetime.make 2024 8 1 0 0 0);
     latest_file := Some "old~20240801-000000.txt";
     latest_outside_limit := true;
     backup_file := None;
     backup_time := None |}.

(** How many copy errors were logged, and how many copies were tried, among
    the calls [cs]. *)
Definition is_copy_error (c : Call) : bool :=
  match c with CallLogError _ => true | _ => false end.

Definition copy_errors (cs : list Call) : nat :=
  List.length (filter is_copy_error cs).

Definition is_copy (c : Call) : bool :=
  match c with CallCopy2 _ _ => true | _ => false end.

Definition copies (cs : list Call) : nat :=
  List.length (filter is_copy cs).


(** A row that names a backup and the latest revision, both with the time
    their names carry, the backup not after the cut-off nor after the
    latest, the flag telling whether the latest is after the cut-off, and
    at least one backup counted. *)
Definition row_well_formed (cutoff : datetime.t) (row : RecoveredRow) : Prop :=
  let '(_, bak, bak_time, n, out_limit, last, last_time) := row in
  exists chosen tc latest tl,
    bak = Some chosen /\ bak_time = Some tc
    /\ last = Some latest /\ last_time = Some tl
    /\ parse_timestamp chosen = inr tc
    /\ parse_timestamp latest = inr tl
    /\ datetime.le tc cutoff = true
    /\ datetime.le tc tl = true
    /\ out_limit = datetime.gt tl cutoff
    /\ 1 <= n.

(** A disk with a backup directory that exists and cannot be listed. *)
Definition vault_disk : Disk :=
  {| disk_dirs := ["bk/"; "bk/vault"];
     disk_entries := disk_entries example_disk;
     disk_unwritable := [] |}.

(** The disk for a recovery tree in which no directory can be created. *)
Definition readonly_fs : FileSystem Disk :=
  {| fs_exists := fs_exists disk_fs;
     fs_listdir := fs_listdir disk_fs;
     fs_makedirs := fun _ d => (inl (OSError "cannot create"), d);
     fs_copy2 := fs_copy2 disk_fs |}.

(** The character [c] does not occur in [s]. *)
Definition absent (c : ascii) (s : string) : Prop := Str.rfind c s = -1.

(* ===================================================================== *)
(** ** The reports and [main] *)
(* ===================================================================== *)

Definition newline : ascii := ascii_of_nat 10.

(** The text [log_missing_files] and [log_possibly_corrupted_files] write:
    each path followed by a newline. *)
Fixpoint lines_text (paths : list string) : string :=
  match paths with
  | [] => ""
  | path :: rest => path ++ String newline (lines_text rest)
  end.

(** A value handed to [csv.DictWriter]. *)
Inductive Cell : Type :=
| CellStr (s : string)
| CellInt (n : Z)
| CellBool (b : bool)
| CellNone.

Definition cell_of_name (o : option string) : Cell :=
  match o with
  | Some s => CellStr s
  | None => CellNone
  end.

(** The column names of [log_recovered_files]. *)
Definition fieldnames : list string :=
  ["Original File"; "Backup File"; "Timestamp of Backup File";
   "Number of Backup Files Present"; "Is Last Backup Outside Limit";
   "Last Backup Found"; "Last Backup Timestamp"].

(** What a report function writes to its file: text, or the header and the
    rows handed to the CSV writer. *)
Inductive Report : Type :=
| TextReport (text : string)
| CsvReport (header : list string) (rows : list (list (string * Cell))).

(** Calling [strftime] on [None]. *)
Inductive ReportError : Type :=
| AttributeError.

Section Reports.

(** [t.strftime('%Y-%m-%d %H:%M:%S')] *)
Variable strftime : datetime.t -> string.

(** The dictionary [log_recovered_files] builds for one row. *)
Definition recovered_dict (row : RecoveredRow)
  : ReportError + list (string * Cell) :=
  let '(orig, bak, bak_time, count, out_limit, last, last_time) := row in
  match bak_time with
  | None => inl AttributeError
  | Some bak_time =>
      match last_time with
      | None => inl AttributeError
      | Some last_time =>
          inr [(nth 0 fieldnames "", CellStr orig);
               (nth 1 fieldnames "", cell_of_name bak);
               (nth 2 fieldnames "", CellStr (strftime bak_time));
               (nth 3 fieldnames "", CellInt count);
               (nth 4 fieldnames "", CellBool out_limit);
               (nth 5 fieldnames "", cell_of_name last);
               (nth 6 fieldnames "", CellStr (strftime last_time))]
      end
  end.

(** The loop of [log_recovered_files]: the rows written, and the error that
    stopped it, if any. *)
Fixpoint recovered_dicts (rows : list RecoveredRow)
  : list (list (string * Cell)) * option ReportError :=
  match rows with
  | [] => ([], None)
  | row :: rest =>
      match recovered_dict row with
      | inl e => ([], Some e)
      | inr d =>
          let '(ds, err) := recovered_dicts rest in
          (d :: ds, err)
      end
  end.

End Reports.

(** What [main] needs beyond the loop: [os.path.isdir], the walk of
    [get_all_files] (relative paths of the files under a directory), and
    writing a report file. *)
Record Platform (World : Type) : Type := {
  plat_fs : FileSystem World;
  plat_isdir : string -> World -> bool;
  plat_walk : string -> World -> list string;
  plat_write : string -> Report -> World -> (Exception + unit) * World;
  plat_strftime : datetime.t -> string
}.

Arguments plat_fs {World} _.
Arguments plat_isdir {World} _ _ _.
Arguments plat_walk {World} _ _ _.
Arguments plat_write {World} _ _ _ _.
Arguments plat_strftime {World} _ _.

(** The module constants [main] reads on top of those of the loop. *)
Record MainConfig : Type := {
  loop_cfg : Config;
  CORRUPTED_DIR : string;
  LOGS_DIR : string
}.

Definition MISSING_FILES_LOG (mc : MainConfig) : string :=
  LOGS_DIR mc ++ "/missing-files.txt".

Definition RECOVERED_FILES_CSV (mc : MainConfig) : string :=
  LOGS_DIR mc ++ "/recovered-files.csv".

Definition POSSIBLY_CORRUPTED_LOG (mc : MainConfig) : string :=
  LOGS_DIR mc ++ "/possibly-corrupted-file-backups.txt".

(** What [main] does, in order; [MainLoop] wraps the calls of the loop and
    of [ensure_directory_exists]. *)
Inductive MainCall : Type :=
| MainIsdir (path : string)
| MainWalk (path : string)
| MainLoop (c : Call)
| MainWrite (path : string) (report : Report)
| MainLogInfo (msg : string)
| MainLogError (msg : string).

Inductive MainException : Type :=
| FromException (e : Exception)
| FromReport (e : ReportError).

(** How [main] ends: it returns, it calls [exit], or an exception leaves
    it. *)
Inductive MainOutcome : Type :=
| Returned
| Exited (status : Z)
| Raised (e : MainException).

Definition MainState (World : Type) : Type := (World * list MainCall)%type.

(** Steps of [main]: [inl] ends the run. *)
Definition MainM (World A : Type) : Type :=
  MainState World -> (MainOutcome + A) * MainState World.

Definition mret {World A} (a : A) : MainM World A := fun st => (inr a, st).

Definition mbind {World A B} (m : MainM World A) (k : A -> MainM World B)
  : MainM World B :=
  fun st =>
    match m st with
    | (inl out, st') => (inl out, st')
    | (inr a, st') => k a st'
    end.

Notation "x <-- m ;; k" := (mbind m (fun x => k))
  (at level 61, m at next level, right associativity).
Notation "m ;;;; k" := (mbind m (fun _ => k))
  (at level 61, right associativity).

Definition main_call {World} (c : MainCall) : MainM World unit :=
  fun '(w, cs) => (inr tt, (w, (cs ++ [c])%list)).

(** [exit(status)] *)
Definition exit {World A} (status : Z) : MainM World A :=
  fun st => (inl (Exited status), st).

(** A computation of the loop's monad run inside [main]. *)
Definition from_loop {World A} (m : M World A) : MainM World A :=
  fun '(w, cs) =>
    match m (start w) with
    | (inl e, s) =>
        (inl (Raised (FromException e)),
         (world s, (cs ++ map MainLoop (calls s))%list))
    | (inr a, s) =>
        (inr a, (world s, (cs ++ map MainLoop (calls s))%list))
    end.

Section Main.

Context {World : Type}.
Variable plat : Platform World.
Variable mc : MainConfig.

(** [check_directory_exists]: [os.path.isdir(directory)] *)
Definition check_directory_exists (directory : string) : MainM World bool :=
  fun '(w, cs) =>
    (inr (plat_isdir plat directory w), (w, (cs ++ [MainIsdir directory])%list)).

(** [get_all_files]: the relative paths of the files under [directory]. *)
Definition get_all_files (directory : string) : MainM World (list string) :=
  fun '(w, cs) =>
    (inr (plat_walk plat directory w), (w, (cs ++ [MainWalk directory])%list)).

(** [with open(path, 'w') as f: ...]: the file is written with [report]. *)
Definition write_report (path : string) (report : Report) : MainM World unit :=
  fun '(w, cs) =>
    match plat_write plat path report w with
    | (inl e, w') =>
        (inl (Raised (FromException e)),
         (w', (cs ++ [MainWrite path report])%list))
    | (inr _, w') => (inr tt, (w', (cs ++ [MainWrite path report])%list))
    end.

Definition log_missing_files (missing_files : list string) : MainM World unit :=
  write_report (MISSING_FILES_LOG mc) (TextReport (lines_text missing_files)).

(** [log_recovered_files]: the header and the rows up to the first one that
    cannot be formatted are written; that row's error leaves the function. *)
Definition log_recovered_files (recovered_files : list RecoveredRow)
  : MainM World unit :=
  let '(dicts, err) := recovered_dicts (plat_strftime plat) recovered_files in
  write_report (RECOVERED_FILES_CSV mc) (CsvReport fieldnames dicts) ;;;;
  match err with
  | Some e => fun st => (inl (Raised (FromReport e)), st)
  | None => mret tt
  end.

Definition log_possibly_corrupted_files (possibly_corrupted_files : list string)
  : MainM World unit :=
  write_report (POSSIBLY_CORRUPTED_LOG mc)
               (TextReport (lines_text possibly_corrupted_files)).

(** [main]; the flag [log_inline] is left out as in [find_and_copy_backup]. *)
Definition main_steps : MainM World unit :=
  ok <-- check_directory_exists (CORRUPTED_DIR mc) ;;
  (if negb ok then
     main_call (MainLogError "Corrupted directory not found.") ;;;;
     exit 1
   else mret tt) ;;;;
  ok <-- check_directory_exists (BACKUP_DIR (loop_cfg mc)) ;;
  (if negb ok then
     main_call (MainLogError "Backup directory not found.") ;;;;
     exit 1
   else mret tt) ;;;;
  from_loop (ensure_directory_exists (plat_fs plat) (RECOVERY_DIR (loop_cfg mc))) ;;;;
  all_files <-- get_all_files (CORRUPTED_DIR mc) ;;
  results <-- from_loop (find_and_copy_backup (plat_fs plat) (loop_cfg mc) all_files) ;;
  from_loop (ensure_directory_exists (plat_fs plat) (LOGS_DIR mc)) ;;;;
  log_missing_files (missing_files results) ;;;;
  log_recovered_files (recovered_files results) ;;;;
  log_possibly_corrupted_files (possibly_corrupted_files results) ;;;;
  main_call (MainLogInfo "Recovery complete.") ;;;;
  main_call (MainLogInfo ("Missing files log: " ++ MISSING_FILES_LOG mc)) ;;;;
  main_call (MainLogInfo ("Recovered files log: " ++ RECOVERED_FILES_CSV mc)) ;;;;
  main_call (MainLogInfo ("Possibly corrupted files log: "
                            ++ POSSIBLY_CORRUPTED_LOG mc)).

Definition main (w : World) : MainOutcome * MainState World :=
  match main_steps (w, []) with
  | (inl out, st) => (out, st)
  | (inr _, st) => (Returned, st)
  end.

End Main.

(** The report files [main] wrote, in order. *)
Definition written (cs : list MainCall) : list (string * Report) :=
  flat_map (fun c => match c with
                     | MainWrite path report => [(path, report)]
                     | _ => []
                     end) cs.

(** A platform over the example disk: [damaged] and [bk] are directories,
    [originals] are the files the walk finds, every write succeeds, and
    times print as [YYYY-MM-DD HH:MM:SS]. *)
Definition show_two (n : Z) : string :=
  String (ascii_of_nat (48 + Z.to_nat (n / 10)))
         (String (ascii_of_nat (48 + Z.to_nat (n mod 10))) "").

Definition example_strftime (t : datetime.t) : string :=
  show_two (datetime.year t / 100) ++ show_two (datetime.year t mod 100)
  ++ "-" ++ show_two (datetime.month t) ++ "-" ++ show_two (datetime.day t)
  ++ " " ++ show_two (datetime.hour t) ++ ":" ++ show_two (datetime.minute t)
  ++ ":" ++ show_two (datetime.second t).

Definition example_platform (fs : FileSystem Disk) (originals : list string)
  : Platform Disk :=
  {| plat_fs := fs;
     plat_isdir := fun path d => str_mem path ["damaged"; "bk"];
     plat_walk := fun _ _ => originals;
     plat_write := fun _ _ d => (inr tt, d);
     plat_strftime := example_strftime |}.

Definition example_main_cfg : MainConfig :=
  {| loop_cfg := example_cfg; CORRUPTED_DIR := "damaged"; LOGS_DIR := "logs" |}.

(* ===================================================================== *)
(** * Properties *)
(* ===================================================================== *)

(** ** The model on the inputs of the specification *)

Example split_extension_txt :
  split_extension "notes~20240714-120000.txt" = ("notes~20240714-120000", ".txt").
Proof. reflexivity. Qed.

Example split_extension_gitignore :
  split_extension ".gitignore" = ("", ".gitignore").
Proof. reflexivity. Qed.

Example split_extension_noext :
  split_extension "Makefile" = ("Makefile", "").
Proof. reflexivity. Qed.

Example split_extension_dotted :
  split_extension ".config.yml" = (".config", ".yml").
Proof. reflexivity. Qed.

Example split_extension_dots_only :
  split_extension "..." = ("", "...").
Proof. reflexivity. Qed.

Example dirname_nested : os_path.dirname "a/b/c.txt" = "a/b".
Proof. reflexivity. Qed.

Example dirname_top : os_path.dirname "c.txt" = "".
Proof. reflexivity. Qed.

Example dirname_root : os_path.dirname "/c.txt" = "/".
Proof. reflexivity. Qed.

Example basename_nested : os_path.basename "a/b/c.txt" = "c.txt".
Proof. reflexivity. Qed.

Example join_plain : os_path.join "bk" ["a/b"; "c.txt"] = "bk/a/b/c.txt".
Proof. reflexivity. Qed.

Example join_empty_tail : os_path.join "bk" [""] = "bk/".
Proof. reflexivity. Qed.

Example join_empty_head : os_path.join "" ["a"] = "a".
Proof. reflexivity. Qed.

Example dirname_double_sep : os_path.dirname "a//c" = "a".
Proof. reflexivity. Qed.

Example startswith_endswith :
  Str.startswith "notes~20240714-120000.txt" "notes~" = true
  /\ Str.startswith "notes.txt" "notes~" = false
  /\ Str.endswith "notes~20240714-120000.txt" ".txt" = true
  /\ Str.endswith "txt" ".txt" = false
  /\ Str.endswith "Makefile~20240714-120000" "" = true.
Proof. repeat split; reflexivity. Qed.

Example backups_of_notes :
  backup_files_of "docs/notes.txt"
    ["notes.txt"; "notes~20240714-120000.txt"; "notes~20240714-120000.md";
     "notes2~20240714-120000.txt"; "notes~copy~20240714-120000.txt"]
  = ["notes~20240714-120000.txt"; "notes~copy~20240714-120000.txt"].
Proof. reflexivity. Qed.

Example backups_of_dotfile :
  backup_files_of ".gitignore" [".gitignore"; "~20240714-120000.gitignore"]
  = ["~20240714-120000.gitignore"]
  /\ parse_timestamp "~20240714-120000.gitignore"
     = inr (datetime.make 2024 7 14 12 0 0).
Proof. split; reflexivity. Qed.

Example split_tilde :
  Str.split "~" "a~b~20240714-120000" = ["a"; "b"; "20240714-120000"].
Proof. reflexivity. Qed.

Example strptime_reference :
  datetime.strptime "20240714-180000" = inr (datetime.make 2024 7 14 18 0 0).
Proof. reflexivity. Qed.

Example reference_time_parsed :
  datetime.strptime "20240714-180000" = inr REFERENCE_TIME.
Proof. reflexivity. Qed.

Example source_cutoff_is_the_sum :
  datetime.add REFERENCE_TIME TIME_LIMIT = Some source_cutoff.
Proof. reflexivity. Qed.

Example add_carries :
  datetime.add (datetime.make 2024 2 28 23 30 0) (datetime.timedelta_hours 3)
  = Some (datetime.make 2024 2 29 2 30 0)
  /\ datetime.add (datetime.make 2023 12 31 22 0 1) (datetime.timedelta_hours 50)
     = Some (datetime.make 2024 1 3 0 0 1)
  /\ datetime.add (datetime.make 9999 12 31 22 0 0) (datetime.timedelta_hours 3)
     = None
  /\ datetime.add (datetime.make 2100 2 28 12 0 0) (datetime.timedelta_hours 24)
     = Some (datetime.make 2100 3 1 12 0 0).
Proof. repeat split; reflexivity. Qed.

Example strptime_short_month :
  datetime.strptime "2024714-180000" = inr (datetime.make 2024 7 14 18 0 0).
Proof. reflexivity. Qed.

Example strptime_backtracks :
  datetime.strptime "20240714-180" = inr (datetime.make 2024 7 14 1 8 0)
  /\ datetime.strptime "202411-111" = inr (datetime.make 2024 1 1 1 1 1)
  /\ datetime.strptime "202407 1-180000" = inr (datetime.make 2024 7 1 18 0 0).
Proof. repeat split; reflexivity. Qed.

Example strptime_rejects :
  datetime.strptime "20240230-000000" = inl (ValueError "out of range")
  /\ datetime.strptime "00000101-000000" = inl (ValueError "out of range")
  /\ datetime.strptime "20240714-180060" = inl (ValueError "out of range")
  /\ datetime.strptime "20240714-240000" = inl (ValueError "unconverted data remains")
  /\ datetime.strptime "2024 714-180000" = inl (ValueError "time data does not match format")
  /\ datetime.strptime "20241-111" = inl (ValueError "time data does not match format")
  /\ datetime.strptime "" = inl (ValueError "time data does not match format").
Proof. repeat split; reflexivity. Qed.

(** ** Strings and paths *)

Lemma append_empty_r (s : string) : s ++ "" = s.
Proof.
  induction s as [|c s IH]; simpl; [reflexivity | now rewrite IH].
Qed.

Lemma take_drop (i : nat) (s : string) : Str.take i s ++ Str.drop i s = s.
Proof.
  revert s; induction i as [|i IH]; intros [|c s]; simpl; try reflexivity.
  now rewrite IH.
Qed.

Lemma length_zero_empty (s : string) :
  (String.length s =? 0)%nat = true <-> s = "".
Proof.
  destruct s; simpl; split; intros H; try reflexivity; discriminate.
Qed.

Lemma splitext_loop_some p e d fuel i r :
  os_path.splitext_loop p e d fuel i = Some r ->
  r = (Str.take (Z.to_nat d) p, Str.drop (Z.to_nat d) p).
Proof.
  revert i; induction fuel as [|fuel IH]; intros i; simpl; [discriminate|].
  destruct (negb _); [intros [= <-]; reflexivity | apply IH].
Qed.

(** [_splitext] cuts its argument in two: it never drops or adds a
    character, whatever the separators. *)
Lemma _splitext_concat p sp alt e name ext :
  os_path._splitext p sp alt e = (name, ext) -> name ++ ext = p.
Proof.
  unfold os_path._splitext.
  set (sepIndex := match alt with Some a => _ | None => _ end).
  destruct (Str.rfind e p >? sepIndex).
  - destruct (os_path.splitext_loop _ _ _ _ _) as [r|] eqn:L.
    + apply splitext_loop_some in L; subst r.
      intros [= <- <-]; apply take_drop.
    + intros [= <- <-]; apply append_empty_r.
  - intros [= <- <-]; apply append_empty_r.
Qed.

Lemma splitext_empty_ext p name :
  os_path.splitext p = (name, "") -> name = p.
Proof.
  intros H; apply _splitext_concat in H.
  now rewrite append_empty_r in H.
Qed.

(** ** The filename codec *)

(** C8.  When [os.path.splitext] gives an empty extension and a name that
    starts with ['.'], [split_extension] gives an empty base and the whole
    file name as the extension; for every other file name it gives what
    [os.path.splitext] gives. *)
Theorem split_extension_swaps_dotfiles :
  forall filename name ext,
    os_path.splitext filename = (name, ext) ->
    (ext = "" /\ Str.startswith name "." = true ->
     split_extension filename = ("", filename))
    /\
    (~ (ext = "" /\ Str.startswith name "." = true) ->
     split_extension filename = (name, ext)).
Proof.
  intros filename name ext E; unfold split_extension; rewrite E.
  split.
  - intros [-> Hdot]; rewrite Hdot; simpl.
    apply splitext_empty_ext in E; now subst.
  - intros Hno.
    destruct (Str.startswith name ".") eqn:Hdot; simpl; [|reflexivity].
    destruct (String.length ext =? 0)%nat eqn:Hlen; [|reflexivity].
    apply length_zero_empty in Hlen; exfalso; apply Hno; now split.
Qed.

Lemma split_extension_swaps_dotfiles_witness :
  split_extension ".gitignore" = ("", ".gitignore")
  /\ split_extension "notes.txt" = ("notes", ".txt").
Proof.
  split.
  - apply (proj1 (split_extension_swaps_dotfiles ".gitignore" ".gitignore" ""
                    eq_refl)).
    split; reflexivity.
  - apply (proj2 (split_extension_swaps_dotfiles "notes.txt" "notes" ".txt"
                    eq_refl)).
    intros [H _]; discriminate H.
Defined.

(** ** The order of date-times *)

Module dt_order.

Import datetime.

Lemma tuple_cmp_refl x : tuple_cmp x x = Eq.
Proof.
  induction x as [|a x IH]; simpl; [reflexivity|].
  now rewrite Z.compare_refl.
Qed.

Lemma tuple_cmp_eq x y : tuple_cmp x y = Eq -> x = y.
Proof.
  revert y; induction x as [|a x IH]; intros [|b y]; simpl;
    try discriminate; [reflexivity|].
  destruct (Z.compare_spec a b) as [->| |]; try discriminate.
  intros H; now rewrite (IH _ H).
Qed.

Lemma tuple_cmp_opp x y : tuple_cmp y x = CompOpp (tuple_cmp x y).
Proof.
  revert y; induction x as [|a x IH]; intros [|b y]; simpl; try reflexivity.
  rewrite (Z.compare_antisym a b).
  destruct (a ?= b)%Z; simpl; [apply IH | reflexivity | reflexivity].
Qed.

Lemma tuple_cmp_gt_trans x y z :
  tuple_cmp x y = Gt -> tuple_cmp y z = Gt -> tuple_cmp x z = Gt.
Proof.
  revert y z; induction x as [|a x IH]; intros [|b y] [|c z]; simpl;
    try discriminate; try reflexivity.
  destruct (Z.compare_spec a b) as [->|Hab|Hab]; try discriminate.
  - destruct (Z.compare_spec b c) as [->|Hbc|Hbc]; try discriminate.
    + apply IH.
    + reflexivity.
  - intros _.
    destruct (Z.compare_spec b c) as [->|Hbc|Hbc]; try discriminate.
    + intros _. destruct (Z.compare_spec a c); try lia; reflexivity.
    + intros _. destruct (Z.compare_spec a c); try lia; reflexivity.
Qed.

Lemma gt_true a b : gt a b = true <-> cmp a b = Gt.
Proof.
  unfold gt; destruct (cmp a b); split; intros H; try reflexivity; discriminate.
Qed.

Lemma le_negb_gt a b : le a b = negb (gt a b).
Proof. unfold le, gt; now destruct (cmp a b). Qed.

Lemma le_refl a : le a a = true.
Proof. unfold le, cmp; now rewrite tuple_cmp_refl. Qed.

Lemma gt_le a b : gt a b = true -> le b a = true.
Proof.
  rewrite gt_true; unfold le, cmp; intros H.
  now rewrite (tuple_cmp_opp (fields a) (fields b)), H.
Qed.

Lemma gt_trans a b c : gt a b = true -> gt b c = true -> gt a c = true.
Proof. rewrite !gt_true; apply tuple_cmp_gt_trans. Qed.

(** [c <= b < a] gives [c < a]. *)
Lemma le_gt_trans a b c : le c b = true -> gt a b = true -> gt a c = true.
Proof.
  intros Hcb Hab.
  destruct (cmp b c) eqn:Hbc.
  - apply tuple_cmp_eq in Hbc.
    rewrite gt_true in *; unfold cmp in *; now rewrite <- Hbc.
  - unfold le, cmp in Hcb; unfold cmp in Hbc.
    rewrite (tuple_cmp_opp (fields b) (fields c)), Hbc in Hcb; discriminate.
  - apply gt_trans with b; [assumption | now apply gt_true].
Qed.

(** [c < b <= a] gives [c < a]. *)
Lemma gt_le_trans a b c : le b a = true -> gt b c = true -> gt a c = true.
Proof.
  intros Hba Hbc.
  destruct (cmp a b) eqn:Hab.
  - apply tuple_cmp_eq in Hab.
    rewrite gt_true in *; unfold cmp in *; now rewrite Hab.
  - unfold le in Hba; unfold cmp in *.
    rewrite (tuple_cmp_opp (fields a) (fields b)), Hab in Hba; discriminate.
  - apply gt_trans with b; [now apply gt_true | assumption].
Qed.

Lemma le_trans a b c : le a b = true -> le b c = true -> le a c = true.
Proof.
  intros Hab Hbc; rewrite le_negb_gt; destruct (gt a c) eqn:Hac; [|reflexivity].
  pose proof (le_gt_trans _ _ _ Hbc Hac) as H.
  rewrite le_negb_gt, H in Hab; discriminate.
Qed.

(** A time after the cut-off is after every time up to the cut-off. *)
Lemma outside_above_inside cutoff a b :
  le a cutoff = false -> le b cutoff = true -> gt a b = true.
Proof.
  intros Ha Hb.
  apply le_gt_trans with cutoff; [assumption|].
  rewrite le_negb_gt in Ha. now destruct (gt a cutoff).
Qed.

End dt_order.

(** ** The revision selector *)

Section SelectorProperties.

Variable cutoff : datetime.t.

Lemma first_max_member keep files f t :
  first_max keep files f t ->
  In f files /\ parse_timestamp f = inr t /\ keep t = true.
Proof.
  intros (Hk & pre & post & -> & Hp & _ & _).
  repeat split; try assumption.
  apply in_or_app; right; now left.
Qed.

Lemma first_max_greatest keep files f t :
  first_max keep files f t ->
  forall g tg, In g files -> parse_timestamp g = inr tg -> keep tg = true ->
               datetime.le tg t = true.
Proof.
  intros (Hk & pre & post & -> & Hp & Hpre & Hpost) g tg Hin Hg Hkg.
  apply in_app_or in Hin; destruct Hin as [Hin|[<-|Hin]].
  - apply dt_order.gt_le; eauto.
  - rewrite Hp in Hg; injection Hg as <-; apply dt_order.le_refl.
  - eauto.
Qed.

(** A newer time than the one held is newer than everything seen. *)
Lemma first_max_all_below keep files f t t' :
  first_max keep files f t ->
  datetime.gt t' t = true ->
  forall g tg, In g files -> parse_timestamp g = inr tg -> keep tg = true ->
               datetime.gt t' tg = true.
Proof.
  intros (Hk & pre & post & -> & Hp & Hpre & Hpost) Hnew g tg Hin Hg Hkg.
  apply in_app_or in Hin; destruct Hin as [Hin|[<-|Hin]].
  - apply dt_order.gt_trans with t; eauto.
  - rewrite Hp in Hg; now injection Hg as <-.
  - apply dt_order.le_gt_trans with t; eauto.
Qed.

(** The entry held stays when the next one is not kept or not newer. *)
Lemma first_max_snoc_stays keep done f t f' t' :
  first_max keep done f t ->
  parse_timestamp f' = inr t' ->
  (keep t' = true -> datetime.le t' t = true) ->
  first_max keep (done ++ [f']) f t.
Proof.
  intros (Hk & pre & post & -> & Hp & Hpre & Hpost) Hp' Hle.
  split; [assumption|].
  exists pre, (post ++ [f'])%list.
  split; [now rewrite <- app_assoc|].
  split; [assumption|].
  split; [assumption|].
  intros g tg Hin Hg Hkg.
  apply in_app_or in Hin; destruct Hin as [Hin|[<-|[]]]; [eauto|].
  rewrite Hp' in Hg; injection Hg as <-; auto.
Qed.

(** The next entry takes the slot when it is newer than all kept so far. *)
Lemma first_max_snoc_takes keep done f' t' :
  (forall g tg, In g done -> parse_timestamp g = inr tg -> keep tg = true ->
                datetime.gt t' tg = true) ->
  parse_timestamp f' = inr t' ->
  keep t' = true ->
  first_max keep (done ++ [f']) f' t'.
Proof.
  intros Hbelow Hp' Hk.
  split; [assumption|].
  exists done, []; repeat split; try assumption.
  intros g tg [].
Qed.

(** What [select_step] leaves in each field. *)
Lemma select_step_fields bak file ts :
  let bak' := select_step cutoff bak file ts in
  let newer := is_newer ts (latest_time bak) in
  let chosen := datetime.le ts cutoff && is_newer ts (backup_time bak) in
  latest_file bak' = (if newer then Some file else latest_file bak)
  /\ latest_time bak' = (if newer then Some ts else latest_time bak)
  /\ latest_outside_limit bak' =
       (if newer then negb (datetime.le ts cutoff) else latest_outside_limit bak)
  /\ backup_file bak' = (if chosen then Some file else backup_file bak)
  /\ backup_time bak' = (if chosen then Some ts else backup_time bak)
  /\ count bak' = count bak.
Proof.
  unfold select_step.
  destruct (is_newer ts (latest_time bak)); cbn;
    destruct (datetime.le ts cutoff); cbn;
    try destruct (is_newer ts (backup_time bak)); cbn;
    repeat split; reflexivity.
Qed.

Lemma latest_ok_step done bak file ts :
  latest_ok cutoff done bak ->
  parse_timestamp file = inr ts ->
  latest_ok cutoff (done ++ [file]) (select_step cutoff bak file ts).
Proof.
  unfold latest_ok; intros H Hp.
  destruct (select_step_fields bak file ts) as (-> & -> & -> & _).
  destruct (latest_file bak) as [fl|] eqn:Efl;
    destruct (latest_time bak) as [tl|] eqn:Etl; try contradiction; simpl.
  - destruct H as [Hmax Hout].
    destruct (datetime.gt ts tl) eqn:Hgt.
    + split; [|reflexivity].
      apply first_max_snoc_takes; try easy.
      now apply (first_max_all_below _ _ _ _ _ Hmax).
    + split; [|assumption].
      apply first_max_snoc_stays with ts; try assumption.
      intros _. rewrite dt_order.le_negb_gt, Hgt. reflexivity.
  - subst done. split; [|reflexivity].
    apply first_max_snoc_takes; easy.
Qed.

Lemma chosen_ok_step done bak file ts :
  chosen_ok cutoff done bak ->
  parse_timestamp file = inr ts ->
  chosen_ok cutoff (done ++ [file]) (select_step cutoff bak file ts).
Proof.
  unfold chosen_ok; intros H Hp.
  destruct (select_step_fields bak file ts) as (_ & _ & _ & -> & -> & _).
  destruct (datetime.le ts cutoff) eqn:Hin; simpl.
  - (* inside the limit *)
    destruct (backup_file bak) as [fc|] eqn:Efc;
      destruct (backup_time bak) as [tc|] eqn:Etc; try contradiction; simpl.
    + destruct (datetime.gt ts tc) eqn:Hgt.
      * apply first_max_snoc_takes; try assumption.
        now apply (first_max_all_below _ _ _ _ _ H).
      * apply first_max_snoc_stays with ts; try assumption.
        intros _. rewrite dt_order.le_negb_gt, Hgt. reflexivity.
    + apply first_max_snoc_takes; try assumption.
      intros g tg Hg Hpg Hk. unfold keep_upto in Hk.
      rewrite (H g tg Hg Hpg) in Hk; discriminate.
  - (* outside the limit *)
    destruct (backup_file bak) as [fc|] eqn:Efc;
      destruct (backup_time bak) as [tc|] eqn:Etc; try contradiction.
    + apply first_max_snoc_stays with ts; try assumption.
      unfold keep_upto; rewrite Hin; discriminate.
    + intros g tg Hg Hpg.
      apply in_app_or in Hg; destruct Hg as [Hg|[<-|[]]]; [eauto|].
      rewrite Hp in Hpg; now injection Hpg as <-.
Qed.

Lemma count_select_step bak file ts :
  count (select_step cutoff bak file ts) = count bak.
Proof. apply select_step_fields. Qed.

(** The loop keeps the invariant: induction on the files still to do. *)
Lemma backup_info_loop_inv rest :
  forall done bak bak',
    selector_inv cutoff done bak ->
    backup_info_loop cutoff rest bak = inr bak' ->
    selector_inv cutoff (done ++ rest) bak' /\ count bak' = count bak.
Proof.
  induction rest as [|file rest IH]; intros done bak bak' Hinv; simpl.
  - intros [= <-]; now rewrite app_nil_r.
  - unfold backup_info_body.
    destruct (parse_timestamp file) as [e|ts] eqn:Hp; [discriminate|].
    intros Hloop.
    destruct Hinv as [Hl Hc].
    destruct (IH (done ++ [file])%list _ _
                 (conj (latest_ok_step _ _ _ _ Hl Hp) (chosen_ok_step _ _ _ _ Hc Hp))
                 Hloop) as [Hinv' Hcount].
    rewrite <- app_assoc in Hinv'; simpl in Hinv'.
    split; [assumption|].
    now rewrite Hcount, count_select_step.
Qed.

Lemma selector_inv_init files :
  selector_inv cutoff [] (BackupFileInfo_init files).
Proof.
  split; [reflexivity|]. intros g tg [].
Qed.

Lemma get_backup_file_info_inv files bak :
  get_backup_file_info cutoff files = inr bak ->
  selector_inv cutoff files bak /\ count bak = Z.of_nat (List.length files).
Proof.
  intros H.
  apply (backup_info_loop_inv files [] _ _ (selector_inv_init files)) in H.
  exact H.
Qed.

(** The two halves of each slot are set together. *)
Lemma chosen_slot files bak f :
  get_backup_file_info cutoff files = inr bak ->
  backup_file bak = Some f ->
  exists t, backup_time bak = Some t /\ first_max (keep_upto cutoff) files f t.
Proof.
  intros H Hf; apply get_backup_file_info_inv in H.
  destruct H as [[_ Hc] _]; unfold chosen_ok in Hc; rewrite Hf in Hc.
  destruct (backup_time bak) as [t|]; [eauto | contradiction].
Qed.

Lemma latest_slot files bak t :
  get_backup_file_info cutoff files = inr bak ->
  latest_time bak = Some t ->
  exists f, latest_file bak = Some f /\ first_max keep_all files f t
            /\ latest_outside_limit bak = negb (datetime.le t cutoff).
Proof.
  intros H Ht; apply get_backup_file_info_inv in H.
  destruct H as [[Hl _] _]; unfold latest_ok in Hl; rewrite Ht in Hl.
  destruct (latest_file bak) as [f|]; [|contradiction].
  destruct Hl; eauto.
Qed.

Lemma chosen_time_slot files bak t :
  get_backup_file_info cutoff files = inr bak ->
  backup_time bak = Some t ->
  exists f, backup_file bak = Some f /\ first_max (keep_upto cutoff) files f t.
Proof.
  intros H Ht; apply get_backup_file_info_inv in H.
  destruct H as [[_ Hc] _]; unfold chosen_ok in Hc; rewrite Ht in Hc.
  destruct (backup_file bak) as [f|]; [eauto | contradiction].
Qed.

End SelectorProperties.

Example notes_selected :
  get_backup_file_info source_cutoff notes_backups = inr notes_info.
Proof. reflexivity. Qed.

Example empty_selected :
  get_backup_file_info source_cutoff [] =
  inr {| count := 0; latest_time := None; latest_file := None;
         latest_outside_limit := false;
         backup_file := None; backup_time := None |}.
Proof. reflexivity. Qed.

(** C2.  When the selector returns with a chosen backup, the time of that
    backup is at most the cut-off (the comparison is inclusive), it is the
    time read from the chosen file name, and no candidate whose time is at
    most the cut-off is newer. *)
Theorem chosen_is_newest_within_cutoff :
  forall cutoff files bak chosen,
    get_backup_file_info cutoff files = inr bak ->
    backup_file bak = Some chosen ->
    exists ts,
      backup_time bak = Some ts
      /\ In chosen files
      /\ parse_timestamp chosen = inr ts
      /\ datetime.le ts cutoff = true
      /\ forall g tg,
           In g files -> parse_timestamp g = inr tg ->
           datetime.le tg cutoff = true -> datetime.le tg ts = true.
Proof.
  intros cutoff files bak chosen Hrun Hchosen.
  destruct (chosen_slot _ _ _ _ Hrun Hchosen) as (ts & Hts & Hmax).
  exists ts; split; [assumption|].
  destruct (first_max_member _ _ _ _ Hmax) as (Hin & Hp & Hk).
  repeat split; try assumption.
  exact (first_max_greatest _ _ _ _ Hmax).
Qed.

Lemma chosen_is_newest_within_cutoff_witness :
  exists ts,
    backup_time notes_info = Some ts
    /\ In "notes~20240714-190000.txt" notes_backups
    /\ parse_timestamp "notes~20240714-190000.txt" = inr ts
    /\ datetime.le ts source_cutoff = true
    /\ forall g tg,
         In g notes_backups -> parse_timestamp g = inr tg ->
         datetime.le tg source_cutoff = true -> datetime.le tg ts = true.
Proof.
  apply (chosen_is_newest_within_cutoff source_cutoff notes_backups notes_info
           "notes~20240714-190000.txt"); reflexivity.
Defined.

(** C6.  When the selector returns, the latest time is not before the chosen
    time whenever both are set; the latest time is the time read from the
    latest file, a member of the candidates, and no candidate is newer; and
    the latest slot is set as soon as there is a candidate. *)
Theorem latest_is_newest_and_not_before_chosen :
  forall cutoff files bak,
    get_backup_file_info cutoff files = inr bak ->
    (forall tl tc,
        latest_time bak = Some tl -> backup_time bak = Some tc ->
        datetime.le tc tl = true)
    /\ (forall tl,
          latest_time bak = Some tl ->
          (exists f, latest_file bak = Some f /\ In f files
                     /\ parse_timestamp f = inr tl)
          /\ (forall g tg, In g files -> parse_timestamp g = inr tg ->
                           datetime.le tg tl = true))
    /\ (files <> [] -> exists tl, latest_time bak = Some tl).
Proof.
  intros cutoff files bak Hrun.
  assert (Hlatest : forall tl, latest_time bak = Some tl ->
            (exists f, latest_file bak = Some f /\ In f files
                       /\ parse_timestamp f = inr tl)
            /\ (forall g tg, In g files -> parse_timestamp g = inr tg ->
                             datetime.le tg tl = true)).
  { intros tl Htl.
    destruct (latest_slot _ _ _ _ Hrun Htl) as (f & Hf & Hmax & _).
    destruct (first_max_member _ _ _ _ Hmax) as (Hin & Hp & _).
    split; [eauto|].
    intros g tg Hg Hpg.
    now apply (first_max_greatest _ _ _ _ Hmax g tg). }
  split; [|split; [exact Hlatest|]].
  - intros tl tc Htl Htc.
    destruct (chosen_time_slot _ _ _ _ Hrun Htc) as (fc & _ & Hmax).
    destruct (first_max_member _ _ _ _ Hmax) as (Hin & Hp & _).
    destruct (Hlatest tl Htl) as [_ Hall]; eauto.
  - intros Hne.
    destruct (get_backup_file_info_inv _ _ _ Hrun) as [[Hl _] _].
    unfold latest_ok in Hl.
    destruct (latest_file bak); destruct (latest_time bak);
      try contradiction; eauto.
Qed.

Lemma latest_is_newest_and_not_before_chosen_witness :
  (forall tl tc,
      latest_time notes_info = Some tl -> backup_time notes_info = Some tc ->
      datetime.le tc tl = true)
  /\ (forall tl,
        latest_time notes_info = Some tl ->
        (exists f, latest_file notes_info = Some f /\ In f notes_backups
                   /\ parse_timestamp f = inr tl)
        /\ (forall g tg, In g notes_backups -> parse_timestamp g = inr tg ->
                         datetime.le tg tl = true))
  /\ (notes_backups <> [] -> exists tl, latest_time notes_info = Some tl).
Proof.
  apply (latest_is_newest_and_not_before_chosen source_cutoff notes_backups
           notes_info); reflexivity.
Defined.

(** C5, as the specification words it, fails: of two candidates with the
    same, greatest timestamp the selector does not keep the one it meets
    last.  Both revisions below read as 2024-07-14 12:00:00, which is the
    latest time the selector reports, yet neither slot holds the second. *)
Lemma last_of_equal_timestamps_not_retained :
  exists bak t,
    get_backup_file_info source_cutoff tied_backups = inr bak
    /\ parse_timestamp "notes~20240714-120000.txt" = inr t
    /\ parse_timestamp "notes~copy~20240714-120000.txt" = inr t
    /\ latest_time bak = Some t
    /\ backup_time bak = Some t
    /\ latest_file bak <> Some "notes~copy~20240714-120000.txt"
    /\ backup_file bak <> Some "notes~copy~20240714-120000.txt".
Proof.
  eexists; eexists.
  split; [reflexivity|].
  repeat split; try reflexivity; simpl; discriminate.
Qed.

(** C5, amended.  The selector replaces a slot only by a strictly newer
    time, so of several candidates with the same, greatest timestamp it
    keeps the one it meets first: every candidate before the latest file is
    strictly older than it, and every candidate before the chosen file whose
    time is at most the cut-off is strictly older than the chosen one. *)
Theorem first_of_equal_timestamps_retained :
  forall cutoff files bak,
    get_backup_file_info cutoff files = inr bak ->
    (forall f t,
        latest_file bak = Some f -> latest_time bak = Some t ->
        exists pre post,
          files = (pre ++ f :: post)%list
          /\ parse_timestamp f = inr t
          /\ forall g tg, In g pre -> parse_timestamp g = inr tg ->
                          datetime.gt t tg = true)
    /\ (forall f t,
          backup_file bak = Some f -> backup_time bak = Some t ->
          exists pre post,
            files = (pre ++ f :: post)%list
            /\ parse_timestamp f = inr t
            /\ forall g tg, In g pre -> parse_timestamp g = inr tg ->
                            datetime.le tg cutoff = true ->
                            datetime.gt t tg = true).
Proof.
  intros cutoff files bak Hrun; split; intros f t Hf Ht.
  - destruct (latest_slot _ _ _ _ Hrun Ht) as (f' & Hf' & Hmax & _).
    rewrite Hf in Hf'; injection Hf' as <-.
    destruct Hmax as (_ & pre & post & Hfiles & Hp & Hpre & _).
    exists pre, post; repeat split; try assumption.
    intros g tg Hg Hpg; now apply (Hpre g tg).
  - destruct (chosen_time_slot _ _ _ _ Hrun Ht) as (f' & Hf' & Hmax).
    rewrite Hf in Hf'; injection Hf' as <-.
    destruct Hmax as (_ & pre & post & Hfiles & Hp & Hpre & _).
    exists pre, post; repeat split; try assumption.
Qed.

Example tied_selected :
  get_backup_file_info source_cutoff tied_backups = inr tied_info.
Proof. reflexivity. Qed.

Lemma first_of_equal_timestamps_retained_witness :
  parse_timestamp "notes~20240714-120000.txt"
  = parse_timestamp "notes~copy~20240714-120000.txt"
  /\ latest_file tied_info = Some "notes~20240714-120000.txt"
  /\ backup_file tied_info = Some "notes~20240714-120000.txt"
  /\ (forall f t,
        latest_file tied_info = Some f -> latest_time tied_info = Some t ->
        exists pre post,
          tied_backups = (pre ++ f :: post)%list
          /\ parse_timestamp f = inr t
          /\ forall g tg, In g pre -> parse_timestamp g = inr tg ->
                          datetime.gt t tg = true)
  /\ (forall f t,
        backup_file tied_info = Some f -> backup_time tied_info = Some t ->
        exists pre post,
          tied_backups = (pre ++ f :: post)%list
          /\ parse_timestamp f = inr t
          /\ forall g tg, In g pre -> parse_timestamp g = inr tg ->
                          datetime.le tg source_cutoff = true ->
                          datetime.gt t tg = true).
Proof.
  split; [reflexivity|]. split; [reflexivity|]. split; [reflexivity|].
  apply (first_of_equal_timestamps_retained source_cutoff tied_backups
           tied_info); reflexivity.
Defined.

(** The selector stops at the first file name whose timestamp does not
    parse, with the error [strptime] raised, whatever comes after it. *)
Lemma backup_info_loop_raises cutoff pre bad post e :
  (forall g, In g pre -> exists t, parse_timestamp g = inr t) ->
  parse_timestamp bad = inl e ->
  forall bak, backup_info_loop cutoff (pre ++ bad :: post) bak = inl e.
Proof.
  intros Hpre Hbad; induction pre as [|g pre IH]; intros bak; simpl.
  - unfold backup_info_body; now rewrite Hbad.
  - unfold backup_info_body.
    destruct (Hpre g (or_introl eq_refl)) as [t ->].
    apply IH; intros g' Hg'; apply Hpre; now right.
Qed.

Lemma get_backup_file_info_raises cutoff pre bad post e :
  (forall g, In g pre -> exists t, parse_timestamp g = inr t) ->
  parse_timestamp bad = inl e ->
  get_backup_file_info cutoff (pre ++ bad :: post) = inl e.
Proof.
  intros Hpre Hbad; unfold get_backup_file_info.
  now apply backup_info_loop_raises.
Qed.

(** ** The recovery loop *)

Section OrchestratorProperties.

Context {World : Type}.
Variable fs : FileSystem World.
Variable cfg : Config.

(** [loop_body], branch by branch: the result of the round, the world it
    leaves and the calls it made. *)
Lemma loop_body_branches results file (s : State World) :
  loop_body fs cfg results file s =
  let dir := backup_dir_of cfg file in
  if negb (fs_exists fs dir (world s)) then
    (inr (append_missing file results), after s (world s) [CallExists dir])
  else
    match fs_listdir fs dir (world s) with
    | inl e => (inl e, after s (world s) [CallExists dir; CallListdir dir])
    | inr entries =>
        match backup_files_of file entries with
        | [] =>
            (inr (append_missing file results),
             after s (world s) [CallExists dir; CallListdir dir])
        | _ :: _ =>
            match get_backup_file_info (CUTOFF cfg)
                                       (backup_files_of file entries) with
            | inl e =>
                (inl e, after s (world s) [CallExists dir; CallListdir dir])
            | inr info =>
                match backup_file info with
                | None =>
                    (inr (append_missing file results),
                     after s (world s)
                           [CallExists dir; CallListdir dir; CallBreakpoint])
                | Some chosen =>
                    let src := backup_path_of cfg file chosen in
                    let dst := recovery_path_of cfg file in
                    let rdir := recovery_dir_of cfg file in
                    match fs_makedirs fs rdir (world s) with
                    | (inl e, w1) =>
                        (inl e,
                         after s w1 [CallExists dir; CallListdir dir;
                                     CallMakedirs rdir])
                    | (inr _, w1) =>
                        match fs_copy2 fs src dst w1 with
                        | (inl _, w2) =>
                            (inr results,
                             after s w2
                               [CallExists dir; CallListdir dir;
                                CallMakedirs rdir; CallCopy2 src dst;
                                CallLogError
                                  ("Error copying " ++ src ++ " to "
                                                    ++ dst ++ ".")])
                        | (inr _, w2) =>
                            (inr (append_recovered (row_of file info) results),
                             after s w2
                               [CallExists dir; CallListdir dir;
                                CallMakedirs rdir; CallCopy2 src dst])
                        end
                    end
                end
            end
        end
    end.
Proof.
  unfold loop_body, backup_dir_of, backup_files_of, backup_path_of,
    recovery_dir_of, recovery_path_of, row_of.
  destruct (split_extension (os_path.basename file)) as [pre suf]; cbn [fst snd].
  cbv beta zeta.
  unfold bind at 1, os_path_exists at 1; cbn [world calls].
  destruct (fs_exists fs _ (world s)); cbn [negb].
  2: reflexivity.
  unfold bind at 1, os_listdir at 1; cbn [world calls].
  destruct (fs_listdir fs _ (world s)) as [e|entries].
  { unfold after; cbn; now rewrite <- app_assoc. }
  destruct (filter _ entries) as [|b bs] eqn:Hfilter.
  { unfold ret, after; cbn; now rewrite <- app_assoc. }
  unfold bind at 1, lift at 1.
  destruct (get_backup_file_info _ _) as [e|info].
  { unfold after; cbn; now rewrite <- app_assoc. }
  destruct (backup_file info) as [chosen|].
  2: { unfold bind, breakpoint, log_call, ret, after; cbn.
       now rewrite <- !app_assoc. }
  unfold bind at 1, ensure_directory_exists at 1; cbn [world calls].
  destruct (fs_makedirs fs _ (world s)) as [[e|[]] w1].
  { unfold after; cbn; now rewrite <- !app_assoc. }
  unfold try_except, bind, shutil_copy2, logger_error, log_call, ret;
    cbn [world calls].
  destruct (fs_copy2 fs _ _ w1) as [[e|[]] w2];
    unfold after; cbn; now rewrite <- !app_assoc.
Qed.

(** What one round can do to the result: add the file to the missing list,
    add a row for it to the recovered list, or leave the result alone (the
    copy failed).  In each case the decision is the one [verdict] reads off
    the world the round started in. *)
Lemma loop_body_outcome results file (s : State World) r' s' :
  loop_body fs cfg results file s = (inr r', s') ->
  (r' = append_missing file results
   /\ verdict fs cfg (world s) file = Some true)
  \/ (verdict fs cfg (world s) file = Some false
      /\ (r' = results
          \/ exists info, r' = append_recovered (row_of file info) results)).
Proof.
  rewrite loop_body_branches; unfold verdict; cbv zeta.
  destruct (fs_exists fs _ (world s)); cbn [negb].
  2: { intros [= <- <-]; now left. }
  destruct (fs_listdir fs _ (world s)) as [e|entries]; [discriminate|].
  destruct (backup_files_of file entries) as [|b bs] eqn:Hfiles.
  { intros [= <- <-]; now left. }
  destruct (get_backup_file_info _ _) as [e|info]; [discriminate|].
  destruct (backup_file info) as [chosen|].
  2: { intros [= <- <-]; now left. }
  destruct (fs_makedirs fs _ (world s)) as [[e|u] w1]; [discriminate|].
  destruct (fs_copy2 fs _ _ w1) as [[e|u'] w2]; intros [= <- <-]; right;
    (split; [reflexivity|]); [now left | right; now exists info].
Qed.


Lemma for_each_file_cons file rest results (s : State World) :
  for_each_file fs cfg (file :: rest) results s =
  match loop_body fs cfg results file s with
  | (inl e, s1) => (inl e, s1)
  | (inr r1, s1) => for_each_file fs cfg rest r1 s1
  end.
Proof. reflexivity. Qed.

Lemma for_each_file_app done rest results (s : State World) :
  for_each_file fs cfg (done ++ rest) results s =
  match for_each_file fs cfg done results s with
  | (inl e, s1) => (inl e, s1)
  | (inr r1, s1) => for_each_file fs cfg rest r1 s1
  end.
Proof.
  revert results s; induction done as [|f done IH]; intros results s.
  - reflexivity.
  - simpl app; rewrite !for_each_file_cons.
    destruct (loop_body fs cfg results f s) as [[e|r1] s1]; [reflexivity|].
    apply IH.
Qed.

(** *** Fields the loop never writes *)

Lemma loop_body_frame results file (s : State World) r' s' :
  loop_body fs cfg results file s = (inr r', s') ->
  untouched_fields r' = untouched_fields results
  /\ possibly_corrupted_files r' = possibly_corrupted_files results
  /\ total_original r' = total_original results.
Proof.
  intros H; apply loop_body_outcome in H.
  destruct H as [[-> _]|[_ [->|[info ->]]]]; repeat split; reflexivity.
Qed.

Lemma for_each_file_frame files :
  forall results (s : State World) r s',
    for_each_file fs cfg files results s = (inr r, s') ->
    untouched_fields r = untouched_fields results
    /\ possibly_corrupted_files r = possibly_corrupted_files results
    /\ total_original r = total_original results.
Proof.
  induction files as [|file rest IH]; intros results s r s'.
  - intros [= <- <-]; repeat split; reflexivity.
  - rewrite for_each_file_cons.
    destruct (loop_body fs cfg results file s) as [[e|r1] s1] eqn:Hbody;
      [discriminate|].
    intros Hrest.
    destruct (loop_body_frame _ _ _ _ _ Hbody) as (H1 & H2 & H3).
    destruct (IH _ _ _ _ Hrest) as (H1' & H2' & H3').
    repeat split; congruence.
Qed.

(** The possibly-corrupted list is never written either. *)
Lemma possibly_corrupted_never_filled all_files (s : State World) r s' :
  find_and_copy_backup fs cfg all_files s = (inr r, s') ->
  possibly_corrupted_files r = [].
Proof.
  intros H; apply for_each_file_frame in H.
  destruct H as (_ & -> & _); reflexivity.
Qed.

(** C10.  Whatever the input, a result [find_and_copy_backup] returns has
    [total_missing], [total_recovered] and [total_possibly_corrupted] at
    zero and [earliest_file_used], [earliest_time_used], [latest_file_used]
    and [latest_time_used] at [None], however long its missing and
    recovered lists are. *)
Theorem counters_and_extremes_never_updated :
  forall all_files (s : State World) r s',
    find_and_copy_backup fs cfg all_files s = (inr r, s') ->
    total_missing r = 0
    /\ total_recovered r = 0
    /\ total_possibly_corrupted r = 0
    /\ earliest_file_used r = None
    /\ earliest_time_used r = None
    /\ latest_file_used r = None
    /\ latest_time_used r = None.
Proof.
  intros all_files s r s' H; apply for_each_file_frame in H.
  destruct H as (H & _ & _); unfold untouched_fields in H; cbn in H.
  injection H as -> -> -> -> -> -> ->; repeat split; reflexivity.
Qed.

(** *** A missing backup directory *)

(** C7.  When the backup directory of a file does not exist, the round
    appends the file to the missing list and makes one call, the existence
    test: the directory is not listed and the world is as before. *)
Theorem missing_backup_dir_skips_listing :
  forall results file (s : State World),
    fs_exists fs (backup_dir_of cfg file) (world s) = false ->
    loop_body fs cfg results file s =
    (inr (append_missing file results),
     after s (world s) [CallExists (backup_dir_of cfg file)])
    /\ missing_files (append_missing file results) =
       (missing_files results ++ [file])%list
    /\ recovered_files (append_missing file results) = recovered_files results
    /\ forall path, ~ In (CallListdir path) [CallExists (backup_dir_of cfg file)].
Proof.
  intros results file s Hno.
  rewrite loop_body_branches; cbv zeta; rewrite Hno; cbn [negb].
  repeat split.
  intros path [H|[]]; discriminate H.
Qed.

(** *** A failed copy *)

(** A chosen backup is one of the candidates, so there is one. *)
Lemma chosen_needs_candidates cutoff files info chosen :
  get_backup_file_info cutoff files = inr info ->
  backup_file info = Some chosen ->
  files <> [].
Proof.
  intros Hrun Hchosen ->.
  cbv in Hrun; injection Hrun as <-; discriminate Hchosen.
Qed.

(** C4.  When a file has a chosen backup and [copy2] raises, the round ends
    without an exception and returns the result it was given, so the file is
    in neither list because of this round; the error is logged, and the loop
    goes on with the files that are left. *)
Theorem copy_failure_is_per_file :
  forall results file rest (s : State World) entries info chosen w1 w2 e,
    fs_exists fs (backup_dir_of cfg file) (world s) = true ->
    fs_listdir fs (backup_dir_of cfg file) (world s) = inr entries ->
    get_backup_file_info (CUTOFF cfg) (backup_files_of file entries) = inr info ->
    backup_file info = Some chosen ->
    fs_makedirs fs (recovery_dir_of cfg file) (world s) = (inr tt, w1) ->
    fs_copy2 fs (backup_path_of cfg file chosen) (recovery_path_of cfg file) w1
    = (inl e, w2) ->
    let s' :=
      after s w2
        [CallExists (backup_dir_of cfg file);
         CallListdir (backup_dir_of cfg file);
         CallMakedirs (recovery_dir_of cfg file);
         CallCopy2 (backup_path_of cfg file chosen) (recovery_path_of cfg file);
         CallLogError ("Error copying " ++ backup_path_of cfg file chosen
                        ++ " to " ++ recovery_path_of cfg file ++ ".")] in
    loop_body fs cfg results file s = (inr results, s')
    /\ for_each_file fs cfg (file :: rest) results s =
       for_each_file fs cfg rest results s'.
Proof.
  intros results file rest s entries info chosen w1 w2 e
         Hex Hls Hsel Hchosen Hmk Hcp s'.
  assert (Hbody : loop_body fs cfg results file s = (inr results, s')).
  { rewrite loop_body_branches; cbv zeta.
    rewrite Hex, Hls; cbn [negb].
    pose proof (chosen_needs_candidates _ _ _ _ Hsel Hchosen) as Hne.
    destruct (backup_files_of file entries) as [|b bs] eqn:Hfiles;
      [now contradiction Hne|].
    rewrite Hsel, Hchosen, Hmk, Hcp. reflexivity. }
  split; [exact Hbody|].
  now rewrite for_each_file_cons, Hbody.
Qed.

(** *** A timestamp that does not parse *)

(** C3, amended.  When the candidates of a file hold a name whose timestamp
    does not parse, and the names before it parse, the selector raises the
    error of [strptime], and the loop ends with that error after the two
    calls that read the backup directory: nothing is copied for the file and
    the files after it are not looked at. *)
Theorem malformed_timestamp_halts_run :
  forall results file rest (s : State World) entries pre bad post e,
    fs_exists fs (backup_dir_of cfg file) (world s) = true ->
    fs_listdir fs (backup_dir_of cfg file) (world s) = inr entries ->
    backup_files_of file entries = (pre ++ bad :: post)%list ->
    (forall g, In g pre -> exists t, parse_timestamp g = inr t) ->
    parse_timestamp bad = inl e ->
    get_backup_file_info (CUTOFF cfg) (backup_files_of file entries) = inl e
    /\ for_each_file fs cfg (file :: rest) results s =
       (inl e,
        after s (world s) [CallExists (backup_dir_of cfg file);
                           CallListdir (backup_dir_of cfg file)]).
Proof.
  intros results file rest s entries pre bad post e Hex Hls Hfiles Hpre Hbad.
  assert (Hsel : get_backup_file_info (CUTOFF cfg) (backup_files_of file entries)
                 = inl e).
  { rewrite Hfiles; now apply get_backup_file_info_raises. }
  split; [exact Hsel|].
  rewrite for_each_file_cons, loop_body_branches; cbv zeta.
  rewrite Hex, Hls; cbn [negb].
  rewrite Hsel.
  destruct (backup_files_of file entries) as [|b bs]; [|reflexivity].
  destruct pre; discriminate Hfiles.
Qed.

(** *** Missing and recovered do not overlap *)















End OrchestratorProperties.

(** ** The loop on the example disk *)

Example run_notes :
  find_and_copy_backup disk_fs example_cfg ["notes.txt"] (start example_disk) =
  (inr (append_recovered (row_of "notes.txt" notes_info)
                         (initial_results ["notes.txt"])),
   after (start example_disk)
         {| disk_dirs := ["bk/"; "recovery"];
            disk_entries := disk_entries example_disk;
            disk_unwritable := disk_unwritable example_disk |}
         [CallExists "bk/"; CallListdir "bk/"; CallMakedirs "recovery";
          CallCopy2 "bk/notes~20240714-190000.txt" "recovery/notes.txt"]).
Proof. reflexivity. Qed.

Example run_missing :
  fst (find_and_copy_backup disk_fs example_cfg
         ["ghost.txt"; "sub/x.txt"; "old.txt"] (start example_disk)) =
  inr (append_missing "old.txt"
         (append_missing "sub/x.txt"
            (append_missing "ghost.txt"
               (initial_results ["ghost.txt"; "sub/x.txt"; "old.txt"])))).
Proof. reflexivity. Qed.


(** C1, on the code.  [notes.txt] is recovered from the 19:00 revision while
    a revision after the cut-off exists: its row says so, and the
    possibly-corrupted list of the result is empty all the same. *)
Theorem possibly_corrupted_left_empty :
  exists r s',
    find_and_copy_backup disk_fs example_cfg ["notes.txt"] (start example_disk)
    = (inr r, s')
    /\ recovered_files r = [row_of "notes.txt" notes_info]
    /\ row_outside_limit (row_of "notes.txt" notes_info) = true
    /\ In "notes.txt" (recovered_names r)
    /\ possibly_corrupted_files r = []
    /\ ~ In "notes.txt" (possibly_corrupted_files r).
Proof.
  eexists; eexists; split; [reflexivity|].
  repeat split; try reflexivity.
  - now left.
  - intros [].
Qed.

(** C3, as the specification words it, fails: [todo~draft.txt] does not
    parse, and it is not skipped.  The selector raises although the revision
    before it is a good one, and the loop ends with that error after reading
    [bk/] once: [notes.txt], next in line, is never looked at, and no result
    is returned. *)
Lemma malformed_timestamp_not_skipped :
  parse_timestamp "todo~draft.txt"
  = inl (ValueError "time data does not match format")
  /\ (exists t, parse_timestamp "todo~20240714-120000.txt" = inr t
                /\ datetime.le t source_cutoff = true)
  /\ backup_files_of "todo.txt" ["todo~20240714-120000.txt"; "todo~draft.txt"]
     = ["todo~20240714-120000.txt"; "todo~draft.txt"]
  /\ get_backup_file_info source_cutoff
       ["todo~20240714-120000.txt"; "todo~draft.txt"]
     = inl (ValueError "time data does not match format")
  /\ find_and_copy_backup disk_fs example_cfg ["todo.txt"; "notes.txt"]
       (start example_disk)
     = (inl (ValueError "time data does not match format"),
        after (start example_disk) example_disk
              [CallExists "bk/"; CallListdir "bk/"]).
Proof.
  split; [reflexivity|].
  split; [eexists; split; reflexivity|].
  repeat split; reflexivity.
Qed.

Lemma malformed_timestamp_halts_run_witness :
  get_backup_file_info (CUTOFF example_cfg)
    (backup_files_of "todo.txt" (disk_entries_at example_disk "bk/"))
  = inl (ValueError "time data does not match format")
  /\ for_each_file disk_fs example_cfg ("todo.txt" :: ["notes.txt"])
       (initial_results ["todo.txt"; "notes.txt"]) (start example_disk)
     = (inl (ValueError "time data does not match format"),
        after (start example_disk) (world (start example_disk))
              [CallExists (backup_dir_of example_cfg "todo.txt");
               CallListdir (backup_dir_of example_cfg "todo.txt")]).
Proof.
  apply (malformed_timestamp_halts_run disk_fs example_cfg
           (initial_results ["todo.txt"; "notes.txt"]) "todo.txt" ["notes.txt"]
           (start example_disk) (disk_entries_at example_disk "bk/")
           ["todo~20240714-120000.txt"] "todo~draft.txt" []).
  - reflexivity.
  - reflexivity.
  - reflexivity.
  - intros g [<-|[]]; eexists; reflexivity.
  - reflexivity.
Defined.

Lemma copy_failure_is_per_file_witness :
  let r0 := initial_results ["locked.txt"; "notes.txt"] in
  let s' :=
    after (start example_disk)
      {| disk_dirs := ["bk/"; "recovery"];
         disk_entries := disk_entries example_disk;
         disk_unwritable := disk_unwritable example_disk |}
      [CallExists "bk/"; CallListdir "bk/"; CallMakedirs "recovery";
       CallCopy2 "bk/locked~20240714-120000.txt" "recovery/locked.txt";
       CallLogError
         "Error copying bk/locked~20240714-120000.txt to recovery/locked.txt."] in
  loop_body disk_fs example_cfg r0 "locked.txt" (start example_disk)
  = (inr r0, s')
  /\ for_each_file disk_fs example_cfg ("locked.txt" :: ["notes.txt"]) r0
       (start example_disk)
     = for_each_file disk_fs example_cfg ["notes.txt"] r0 s'.
Proof.
  exact (copy_failure_is_per_file disk_fs example_cfg
           (initial_results ["locked.txt"; "notes.txt"]) "locked.txt"
           ["notes.txt"] (start example_disk)
           (disk_entries_at example_disk "bk/")
           {| count := 1;
              latest_time := Some (datetime.make 2024 7 14 12 0 0);
              latest_file := Some "locked~20240714-120000.txt";
              latest_outside_limit := false;
              backup_file := Some "locked~20240714-120000.txt";
              backup_time := Some (datetime.make 2024 7 14 12 0 0) |}
           "locked~20240714-120000.txt"
           {| disk_dirs := ["bk/"; "recovery"];
              disk_entries := disk_entries example_disk;
              disk_unwritable := disk_unwritable example_disk |}
           {| disk_dirs := ["bk/"; "recovery"];
              disk_entries := disk_entries example_disk;
              disk_unwritable := disk_unwritable example_disk |}
           (OSError "cannot write")
           eq_refl eq_refl eq_refl eq_refl eq_refl eq_refl).
Defined.

Lemma missing_backup_dir_skips_listing_witness :
  let r0 := initial_results ["sub/x.txt"] in
  loop_body disk_fs example_cfg r0 "sub/x.txt" (start example_disk)
  = (inr (append_missing "sub/x.txt" r0),
     after (start example_disk) example_disk [CallExists "bk/sub"])
  /\ missing_files (append_missing "sub/x.txt" r0) = ["sub/x.txt"]
  /\ recovered_files (append_missing "sub/x.txt" r0) = []
  /\ forall path, ~ In (CallListdir path) [CallExists "bk/sub"].
Proof.
  exact (missing_backup_dir_skips_listing disk_fs example_cfg
           (initial_results ["sub/x.txt"]) "sub/x.txt" (start example_disk)
           eq_refl).
Defined.

Lemma counters_and_extremes_never_updated_witness :
  let r := append_recovered (row_of "notes.txt" notes_info)
             (append_missing "ghost.txt"
                (initial_results ["ghost.txt"; "notes.txt"])) in
  total_missing r = 0
  /\ total_recovered r = 0
  /\ total_possibly_corrupted r = 0
  /\ earliest_file_used r = None
  /\ earliest_time_used r = None
  /\ latest_file_used r = None
  /\ latest_time_used r = None.
Proof.
  exact (counters_and_extremes_never_updated disk_fs example_cfg
           ["ghost.txt"; "notes.txt"] (start example_disk) _ _ eq_refl).
Defined.






(* ===================================================================== *)
(** * More of the selector *)
(* ===================================================================== *)

Section SelectorEdges.

Variable cutoff : datetime.t.

Lemma backup_info_loop_all_parse files :
  forall bak,
    (forall g, In g files -> exists t, parse_timestamp g = inr t) ->
    exists bak', backup_info_loop cutoff files bak = inr bak'.
Proof.
  induction files as [|g files IH]; intros bak Hall; simpl.
  - now exists bak.
  - unfold backup_info_body.
    destruct (Hall g (or_introl eq_refl)) as [t ->].
    apply IH; intros g' Hg'; apply Hall; now right.
Qed.

Lemma backup_info_loop_parsed files :
  forall bak bak',
    backup_info_loop cutoff files bak = inr bak' ->
    forall g, In g files -> exists t, parse_timestamp g = inr t.
Proof.
  induction files as [|g files IH]; intros bak bak' Hrun g' Hin.
  - destruct Hin.
  - simpl in Hrun; unfold backup_info_body in Hrun.
    destruct (parse_timestamp g) as [e|t] eqn:Hp; [discriminate|].
    destruct Hin as [<-|Hin]; [eauto|].
    exact (IH _ _ Hrun g' Hin).
Qed.

(** The first file name that does not parse, if there is one. *)
Lemma first_unparsable files :
  (forall g, In g files -> exists t, parse_timestamp g = inr t)
  \/ exists pre bad post e,
       files = (pre ++ bad :: post)%list
       /\ (forall g, In g pre -> exists t, parse_timestamp g = inr t)
       /\ parse_timestamp bad = inl e.
Proof.
  induction files as [|g files IH].
  - left; intros g [].
  - destruct (parse_timestamp g) as [e|t] eqn:Hp.
    + right; exists [], g, files, e; repeat split; [intros g' []|assumption].
    + destruct IH as [Hall|(pre & bad & post & e & -> & Hpre & Hbad)].
      * left; intros g' [<-|Hin]; eauto.
      * right; exists (g :: pre), bad, post, e; repeat split; try assumption.
        intros g' [<-|Hin]; eauto.
Qed.

Lemma no_chosen_all_outside files bak :
  get_backup_file_info cutoff files = inr bak ->
  backup_time bak = None ->
  forall g tg, In g files -> parse_timestamp g = inr tg ->
               datetime.le tg cutoff = false.
Proof.
  intros Hrun Hnone.
  destruct (get_backup_file_info_inv _ _ _ Hrun) as [[_ Hc] _].
  unfold chosen_ok in Hc; rewrite Hnone in Hc.
  destruct (backup_file bak); [contradiction | exact Hc].
Qed.

Lemma no_latest_no_files files bak :
  get_backup_file_info cutoff files = inr bak ->
  latest_time bak = None ->
  files = [].
Proof.
  intros Hrun Hnone.
  destruct (get_backup_file_info_inv _ _ _ Hrun) as [[Hl _] _].
  unfold latest_ok in Hl; rewrite Hnone in Hl.
  destruct (latest_file bak); [contradiction | exact Hl].
Qed.

Lemma flag_of_latest files bak :
  get_backup_file_info cutoff files = inr bak ->
  latest_outside_limit bak =
  match latest_time bak with
  | Some tl => datetime.gt tl cutoff
  | None => false
  end.
Proof.
  intros Hrun.
  destruct (latest_time bak) as [tl|] eqn:Htl.
  - destruct (latest_slot _ _ _ _ Hrun Htl) as (f & _ & _ & ->).
    now rewrite dt_order.le_negb_gt, negb_involutive.
  - pose proof (no_latest_no_files _ _ Hrun Htl) as ->.
    cbv in Hrun; now injection Hrun as <-.
Qed.

(** X1.  The selector returns exactly when every candidate name carries a
    timestamp [strptime] accepts; otherwise it raises what [strptime]
    raised on the first name that does not. *)
Theorem selector_returns_iff_all_parse :
  forall files,
    ((exists bak, get_backup_file_info cutoff files = inr bak)
     <-> (forall g, In g files -> exists t, parse_timestamp g = inr t))
    /\ (forall e,
          get_backup_file_info cutoff files = inl e
          <-> exists pre bad post,
                files = (pre ++ bad :: post)%list
                /\ (forall g, In g pre -> exists t, parse_timestamp g = inr t)
                /\ parse_timestamp bad = inl e).
Proof.
  intros files; split; [split|intros e; split].
  - intros [bak Hrun]; exact (backup_info_loop_parsed _ _ _ Hrun).
  - intros Hall; now apply backup_info_loop_all_parse.
  - intros Hrun.
    destruct (first_unparsable files) as [Hall|(pre & bad & post & e' & Hf & Hpre & Hbad)].
    + destruct (backup_info_loop_all_parse files (BackupFileInfo_init files) Hall)
        as [bak Hok].
      unfold get_backup_file_info in Hrun; rewrite Hok in Hrun; discriminate.
    + exists pre, bad, post; repeat split; try assumption.
      pose proof (get_backup_file_info_raises cutoff pre bad post e' Hpre Hbad) as H.
      rewrite <- Hf, Hrun in H; now injection H as ->.
  - intros (pre & bad & post & -> & Hpre & Hbad).
    now apply get_backup_file_info_raises.
Qed.

(** X2.  The count the selector reports is the number of candidates it was
    given, whether or not any of them is chosen. *)
Theorem selector_counts_candidates :
  forall files bak,
    get_backup_file_info cutoff files = inr bak ->
    count bak = Z.of_nat (List.length files).
Proof.
  intros files bak H; now apply get_backup_file_info_inv in H.
Qed.

(** X3.  The chosen slot is empty exactly when every candidate lies after the
    cut-off, and then the chosen time is empty too; the latest slot is empty
    exactly when there is no candidate. *)
Theorem selector_empty_slots :
  forall files bak,
    get_backup_file_info cutoff files = inr bak ->
    (backup_file bak = None
     <-> forall g tg, In g files -> parse_timestamp g = inr tg ->
                      datetime.le tg cutoff = false)
    /\ (backup_file bak = None <-> backup_time bak = None)
    /\ (latest_file bak = None <-> files = [])
    /\ (latest_file bak = None <-> latest_time bak = None).
Proof.
  intros files bak Hrun.
  destruct (get_backup_file_info_inv _ _ _ Hrun) as [[Hl Hc] _].
  unfold latest_ok in Hl; unfold chosen_ok in Hc.
  repeat split.
  - intros Hnone; rewrite Hnone in Hc.
    destruct (backup_time bak); [contradiction | exact Hc].
  - intros Hall.
    destruct (backup_file bak) as [f|] eqn:Hf; [|reflexivity].
    destruct (backup_time bak) as [t|]; [|contradiction].
    destruct (first_max_member _ _ _ _ Hc) as (Hin & Hp & Hk).
    unfold keep_upto in Hk; rewrite (Hall f t Hin Hp) in Hk; discriminate.
  - intros Hnone; rewrite Hnone in Hc.
    destruct (backup_time bak); [contradiction | reflexivity].
  - intros Hnone; rewrite Hnone in Hc.
    destruct (backup_file bak); [contradiction | reflexivity].
  - intros Hnone; rewrite Hnone in Hl.
    destruct (latest_time bak); [contradiction | exact Hl].
  - intros ->.
    cbv in Hrun; injection Hrun as <-; reflexivity.
  - intros Hnone; rewrite Hnone in Hl.
    destruct (latest_time bak); [contradiction | reflexivity].
  - intros Hnone; rewrite Hnone in Hl.
    destruct (latest_file bak); [contradiction | reflexivity].
Qed.

(** X4.  The flag [latest_outside_limit] is set exactly when there is a latest
    candidate and its time is after the cut-off. *)
Theorem latest_outside_limit_flag :
  forall files bak,
    get_backup_file_info cutoff files = inr bak ->
    (latest_outside_limit bak = true
     <-> exists tl, latest_time bak = Some tl /\ datetime.gt tl cutoff = true).
Proof.
  intros files bak Hrun; rewrite (flag_of_latest _ _ Hrun).
  destruct (latest_time bak) as [tl|]; split.
  - intros H; now exists tl.
  - intros (tl' & [= <-] & H); exact H.
  - discriminate.
  - intros (tl & H & _); discriminate H.
Qed.

Lemma split_at_same_or_earlier (a b : string) pre1 :
  forall pre2 post1 post2,
    (pre1 ++ a :: post1 = pre2 ++ b :: post2)%list ->
    a = b \/ In a pre2 \/ In b pre1.
Proof.
  induction pre1 as [|x pre1 IH]; intros [|y pre2] post1 post2; simpl.
  - intros [= -> _]; now left.
  - intros [= -> _]; right; left; now left.
  - intros [= -> _]; right; right; now left.
  - intros [= -> H].
    destruct (IH _ _ _ H) as [->|[Hin|Hin]]; auto.
Qed.

(** X5.  When the newest candidate is not after the cut-off, it is the one
    chosen: same file, same time. *)
Theorem latest_within_limit_is_chosen :
  forall files bak,
    get_backup_file_info cutoff files = inr bak ->
    latest_outside_limit bak = false ->
    backup_file bak = latest_file bak /\ backup_time bak = latest_time bak.
Proof.
  intros files bak Hrun Hflag.
  destruct (latest_time bak) as [tl|] eqn:Htl.
  - destruct (latest_slot _ _ _ _ Hrun Htl) as (fl & Hfl & Hmax & Hout).
    rewrite Hflag in Hout.
    assert (Hin_limit : datetime.le tl cutoff = true)
      by now destruct (datetime.le tl cutoff).
    destruct (first_max_member _ _ _ _ Hmax) as (Hfl_in & Hfl_p & _).
    destruct (backup_file bak) as [fc|] eqn:Hfc.
    + destruct (chosen_slot _ _ _ _ Hrun Hfc) as (tc & Htc & Hcmax).
      destruct (first_max_member _ _ _ _ Hcmax) as (Hfc_in & Hfc_p & _).
      pose proof (first_max_greatest _ _ _ _ Hmax fc tc Hfc_in Hfc_p eq_refl)
        as Hc_le_l.
      pose proof (first_max_greatest _ _ _ _ Hcmax fl tl Hfl_in Hfl_p Hin_limit)
        as Hl_le_c.
      destruct Hmax as (_ & pre1 & post1 & Hsplit1 & _ & Hpre1 & _).
      destruct Hcmax as (_ & pre2 & post2 & Hsplit2 & _ & Hpre2 & _).
      rewrite Hsplit1 in Hsplit2.
      destruct (split_at_same_or_earlier _ _ _ _ _ _ Hsplit2) as [->|[Hin|Hin]].
      * rewrite Hfl, Htc. split; [reflexivity|]. congruence.
      * pose proof (Hpre2 fl tl Hin Hfl_p Hin_limit) as Hgt.
        rewrite dt_order.le_negb_gt, Hgt in Hc_le_l; discriminate.
      * pose proof (Hpre1 fc tc Hin Hfc_p eq_refl) as Hgt.
        rewrite dt_order.le_negb_gt, Hgt in Hl_le_c; discriminate.
    + exfalso.
      assert (Hbt : backup_time bak = None).
      { destruct (backup_time bak) as [tc|] eqn:Htc; [|reflexivity].
        destruct (chosen_time_slot _ _ _ _ Hrun Htc) as (f & Hf & _).
        congruence. }
      rewrite (no_chosen_all_outside _ _ Hrun Hbt fl tl Hfl_in Hfl_p) in Hin_limit.
      discriminate.
  - pose proof (no_latest_no_files _ _ Hrun Htl) as ->.
    cbv in Hrun; injection Hrun as <-; split; reflexivity.
Qed.

Lemma le_antisym a b :
  datetime.le a b = true -> datetime.le b a = true -> a = b.
Proof.
  unfold datetime.le, datetime.cmp; intros Hab Hba.
  rewrite (dt_order.tuple_cmp_opp (datetime.fields a) (datetime.fields b)) in Hba.
  destruct (datetime.tuple_cmp (datetime.fields a) (datetime.fields b)) eqn:E;
    try discriminate.
  apply dt_order.tuple_cmp_eq in E.
  destruct a, b; unfold datetime.fields in E; simpl in E.
  now injection E as -> -> -> -> -> ->.
Qed.

(** X6.  The times, the count and the flag the selector reports do not depend on
    the order in which the candidates are listed: only which of several
    files with the same time is named does. *)
Theorem selector_times_ignore_order :
  forall files files' bak,
    Permutation files files' ->
    get_backup_file_info cutoff files = inr bak ->
    exists bak',
      get_backup_file_info cutoff files' = inr bak'
      /\ latest_time bak' = latest_time bak
      /\ backup_time bak' = backup_time bak
      /\ latest_outside_limit bak' = latest_outside_limit bak
      /\ count bak' = count bak.
Proof.
  intros files files' bak Hperm Hrun.
  assert (Hall' : forall g, In g files' -> exists t, parse_timestamp g = inr t).
  { intros g Hg. apply (backup_info_loop_parsed _ _ _ Hrun).
    now apply (Permutation_in g (Permutation_sym Hperm)). }
  destruct (backup_info_loop_all_parse files' (BackupFileInfo_init files') Hall')
    as [bak' Hrun'].
  change (get_backup_file_info cutoff files' = inr bak') in Hrun'.
  exists bak'; split; [assumption|].
  assert (Hlatest : latest_time bak' = latest_time bak).
  { destruct (latest_time bak) as [tl|] eqn:Htl;
      destruct (latest_time bak') as [tl'|] eqn:Htl'.
    - destruct (latest_slot _ _ _ _ Hrun Htl) as (f & _ & Hmax & _).
      destruct (latest_slot _ _ _ _ Hrun' Htl') as (f' & _ & Hmax' & _).
      destruct (first_max_member _ _ _ _ Hmax) as (Hin & Hp & _).
      destruct (first_max_member _ _ _ _ Hmax') as (Hin' & Hp' & _).
      f_equal; apply le_antisym.
      + apply (first_max_greatest _ _ _ _ Hmax f' tl'); try easy.
        now apply (Permutation_in f' (Permutation_sym Hperm)).
      + apply (first_max_greatest _ _ _ _ Hmax' f tl); try easy.
        now apply (Permutation_in f Hperm).
    - exfalso.
      pose proof (no_latest_no_files _ _ Hrun' Htl') as ->.
      apply Permutation_sym, Permutation_nil in Hperm.
      subst files. cbv in Hrun; injection Hrun as <-; discriminate Htl.
    - exfalso.
      pose proof (no_latest_no_files _ _ Hrun Htl) as ->.
      apply Permutation_nil in Hperm.
      subst files'. cbv in Hrun'; injection Hrun' as <-; discriminate Htl'.
    - reflexivity. }
  assert (Hchosen : backup_time bak' = backup_time bak).
  { destruct (backup_time bak) as [tc|] eqn:Htc;
      destruct (backup_time bak') as [tc'|] eqn:Htc'.
    - destruct (chosen_time_slot _ _ _ _ Hrun Htc) as (f & _ & Hmax).
      destruct (chosen_time_slot _ _ _ _ Hrun' Htc') as (f' & _ & Hmax').
      destruct (first_max_member _ _ _ _ Hmax) as (Hin & Hp & Hk).
      destruct (first_max_member _ _ _ _ Hmax') as (Hin' & Hp' & Hk').
      f_equal; apply le_antisym.
      + apply (first_max_greatest _ _ _ _ Hmax f' tc'); try easy.
        now apply (Permutation_in f' (Permutation_sym Hperm)).
      + apply (first_max_greatest _ _ _ _ Hmax' f tc); try easy.
        now apply (Permutation_in f Hperm).
    - exfalso.
      destruct (chosen_time_slot _ _ _ _ Hrun Htc) as (f & _ & Hmax).
      destruct (first_max_member _ _ _ _ Hmax) as (Hin & Hp & Hk).
      pose proof (no_chosen_all_outside _ _ Hrun' Htc' f tc
                    (Permutation_in f Hperm Hin) Hp) as Hout.
      unfold keep_upto in Hk; rewrite Hout in Hk; discriminate.
    - exfalso.
      destruct (chosen_time_slot _ _ _ _ Hrun' Htc') as (f & _ & Hmax).
      destruct (first_max_member _ _ _ _ Hmax) as (Hin & Hp & Hk).
      pose proof (no_chosen_all_outside _ _ Hrun Htc f tc'
                    (Permutation_in f (Permutation_sym Hperm) Hin) Hp) as Hout.
      unfold keep_upto in Hk; rewrite Hout in Hk; discriminate.
    - reflexivity. }
  repeat split; try assumption.
  - now rewrite (flag_of_latest _ _ Hrun), (flag_of_latest _ _ Hrun'), Hlatest.
  - destruct (get_backup_file_info_inv _ _ _ Hrun) as [_ ->].
    destruct (get_backup_file_info_inv _ _ _ Hrun') as [_ ->].
    now rewrite (Permutation_length Hperm).
Qed.

End SelectorEdges.

Example early_selected :
  get_backup_file_info source_cutoff early_backups = inr early_info.
Proof. reflexivity. Qed.

Example late_selected :
  get_backup_file_info source_cutoff late_backups = inr late_info.
Proof. reflexivity. Qed.

Lemma selector_counts_candidates_witness :
  count notes_info = Z.of_nat (List.length notes_backups).
Proof.
  exact (selector_counts_candidates source_cutoff notes_backups notes_info
           eq_refl).
Defined.

Lemma selector_empty_slots_witness :
  (backup_file late_info = None
   <-> forall g tg, In g late_backups -> parse_timestamp g = inr tg ->
                    datetime.le tg source_cutoff = false)
  /\ (backup_file late_info = None <-> backup_time late_info = None)
  /\ (latest_file late_info = None <-> late_backups = [])
  /\ (latest_file late_info = None <-> latest_time late_info = None).
Proof.
  exact (selector_empty_slots source_cutoff late_backups late_info eq_refl).
Defined.

Lemma latest_outside_limit_flag_witness :
  latest_outside_limit notes_info = true
  <-> exists tl, latest_time notes_info = Some tl
                 /\ datetime.gt tl source_cutoff = true.
Proof.
  exact (latest_outside_limit_flag source_cutoff notes_backups notes_info
           eq_refl).
Defined.

Lemma latest_within_limit_is_chosen_witness :
  backup_file early_info = latest_file early_info
  /\ backup_time early_info = latest_time early_info.
Proof.
  exact (latest_within_limit_is_chosen source_cutoff early_backups early_info
           eq_refl eq_refl).
Defined.

Lemma selector_times_ignore_order_witness :
  exists bak',
    get_backup_file_info source_cutoff (rev notes_backups) = inr bak'
    /\ latest_time bak' = latest_time notes_info
    /\ backup_time bak' = backup_time notes_info
    /\ latest_outside_limit bak' = latest_outside_limit notes_info
    /\ count bak' = count notes_info.
Proof.
  exact (selector_times_ignore_order source_cutoff notes_backups
           (rev notes_backups) notes_info (Permutation_rev notes_backups)
           eq_refl).
Defined.

(* ===================================================================== *)
(** * More of the recovery loop *)
(* ===================================================================== *)

Section OrchestratorEdges.

Context {World : Type}.
Variable fs : FileSystem World.
Variable cfg : Config.

Lemma copy_errors_app cs cs' :
  copy_errors (cs ++ cs') = (copy_errors cs + copy_errors cs')%nat.
Proof. unfold copy_errors; now rewrite filter_app, length_app. Qed.

Lemma copies_app cs cs' :
  copies (cs ++ cs') = (copies cs + copies cs')%nat.
Proof. unfold copies; now rewrite filter_app, length_app. Qed.

(** One round accounts for its file once: in the missing list, in the
    recovered list, or as a logged copy error; and it copies only for a
    recovered row or a logged error. *)
Lemma loop_body_accounting results file (s : State World) r' s' :
  loop_body fs cfg results file s = (inr r', s') ->
  exists new,
    calls s' = (calls s ++ new)%list
    /\ (List.length (missing_files r') + List.length (recovered_files r')
        + copy_errors new
        = List.length (missing_files results)
          + List.length (recovered_files results) + 1)%nat
    /\ (copies new + List.length (recovered_files results)
        = List.length (recovered_files r') + copy_errors new)%nat.
Proof.
  rewrite loop_body_branches; cbv zeta.
  destruct (fs_exists fs _ (world s)); cbn [negb].
  2: { intros [= <- <-]; eexists; split; [reflexivity|].
       unfold copy_errors, copies; simpl; rewrite length_app; simpl;
         split; lia. }
  destruct (fs_listdir fs _ (world s)) as [e|entries]; [discriminate|].
  destruct (backup_files_of file entries) as [|b bs].
  { intros [= <- <-]; eexists; split; [reflexivity|].
    unfold copy_errors, copies; simpl; rewrite length_app; simpl; split; lia. }
  destruct (get_backup_file_info _ _) as [e|info]; [discriminate|].
  destruct (backup_file info) as [chosen|].
  2: { intros [= <- <-]; eexists; split; [reflexivity|].
       unfold copy_errors, copies; simpl; rewrite length_app; simpl;
         split; lia. }
  destruct (fs_makedirs fs _ (world s)) as [[e|u] w1]; [discriminate|].
  destruct (fs_copy2 fs _ _ w1) as [[e|u'] w2]; intros [= <- <-];
    eexists; (split; [reflexivity|]);
    unfold copy_errors, copies; simpl; rewrite ?length_app; simpl;
    split; lia.
Qed.

Lemma for_each_file_accounting files :
  forall results (s : State World) r s',
    for_each_file fs cfg files results s = (inr r, s') ->
    exists new,
      calls s' = (calls s ++ new)%list
      /\ (List.length (missing_files r) + List.length (recovered_files r)
          + copy_errors new
          = List.length (missing_files results)
            + List.length (recovered_files results) + List.length files)%nat
      /\ (copies new + List.length (recovered_files results)
          = List.length (recovered_files r) + copy_errors new)%nat.
Proof.
  induction files as [|file rest IH]; intros results s r s'.
  - intros [= <- <-]; exists []; rewrite app_nil_r.
    unfold copy_errors, copies; simpl; repeat split; lia.
  - rewrite for_each_file_cons.
    destruct (loop_body fs cfg results file s) as [[e|r1] s1] eqn:Hbody;
      [discriminate|].
    intros Hrest.
    destruct (loop_body_accounting _ _ _ _ _ Hbody) as (n1 & Hc1 & Ha1 & Hb1).
    destruct (IH _ _ _ _ Hrest) as (n2 & Hc2 & Ha2 & Hb2).
    exists (n1 ++ n2)%list.
    rewrite Hc2, Hc1, <- app_assoc, copy_errors_app, copies_app.
    simpl List.length. repeat split; lia.
Qed.

(** X7.  Every file of the input is accounted for once in a result that is
    returned: [total_original] is the number of input files, and that many
    are in the missing list, in the recovered list, or logged as a copy
    error; a copy was tried for each recovered row and each logged error
    and for nothing else. *)
Theorem every_file_accounted_for :
  forall all_files (s : State World) r s',
    find_and_copy_backup fs cfg all_files s = (inr r, s') ->
    total_original r = Z.of_nat (List.length all_files)
    /\ exists new,
         calls s' = (calls s ++ new)%list
         /\ (List.length (missing_files r) + List.length (recovered_files r)
             + copy_errors new = List.length all_files)%nat
         /\ copies new = (List.length (recovered_files r) + copy_errors new)%nat.
Proof.
  intros all_files s r s' Hrun.
  split.
  - apply for_each_file_frame in Hrun. destruct Hrun as (_ & _ & ->); reflexivity.
  - apply for_each_file_accounting in Hrun.
    destruct Hrun as (new & Hc & Ha & Hb).
    exists new; simpl in *; repeat split; try assumption; lia.
Qed.

(** Where a recovered row comes from. *)
Lemma loop_body_recovered results file (s : State World) r' s' :
  loop_body fs cfg results file s = (inr r', s') ->
  r' = append_missing file results
  \/ r' = results
  \/ exists entries info chosen,
       get_backup_file_info (CUTOFF cfg) (backup_files_of file entries) = inr info
       /\ backup_file info = Some chosen
       /\ r' = append_recovered (row_of file info) results.
Proof.
  rewrite loop_body_branches; cbv zeta.
  destruct (fs_exists fs _ (world s)); cbn [negb].
  2: { intros [= <- <-]; now left. }
  destruct (fs_listdir fs _ (world s)) as [e|entries]; [discriminate|].
  destruct (backup_files_of file entries) as [|b bs] eqn:Hfiles.
  { intros [= <- <-]; now left. }
  destruct (get_backup_file_info _ _) as [e|info] eqn:Hsel; [discriminate|].
  destruct (backup_file info) as [chosen|] eqn:Hchosen.
  2: { intros [= <- <-]; now left. }
  destruct (fs_makedirs fs _ (world s)) as [[e|u] w1]; [discriminate|].
  destruct (fs_copy2 fs _ _ w1) as [[e|u'] w2]; intros [= <- <-].
  - right; now left.
  - right; right; exists entries, info, chosen.
    rewrite Hfiles; repeat split; assumption.
Qed.

Lemma row_of_well_formed cutoff files info chosen file :
  get_backup_file_info cutoff files = inr info ->
  backup_file info = Some chosen ->
  row_well_formed cutoff (row_of file info).
Proof.
  intros Hrun Hchosen; unfold row_well_formed, row_of.
  destruct (chosen_slot _ _ _ _ Hrun Hchosen) as (tc & Htc & Hcmax).
  destruct (first_max_member _ _ _ _ Hcmax) as (Hc_in & Hc_p & Hc_k).
  destruct (latest_time info) as [tl|] eqn:Htl.
  - destruct (latest_slot _ _ _ _ Hrun Htl) as (fl & Hfl & Hmax & Hflag).
    destruct (first_max_member _ _ _ _ Hmax) as (Hl_in & Hl_p & _).
    exists chosen, tc, fl, tl; repeat split; try assumption.
    + exact (first_max_greatest _ _ _ _ Hmax chosen tc Hc_in Hc_p eq_refl).
    + now rewrite Hflag, dt_order.le_negb_gt, negb_involutive.
    + destruct (get_backup_file_info_inv _ _ _ Hrun) as [_ ->].
      destruct files; [destruct Hc_in | simpl List.length; lia].
  - pose proof (no_latest_no_files _ _ _ Hrun Htl) as ->. destruct Hc_in.
Qed.

Lemma for_each_file_rows files :
  forall results (s : State World) r s',
    for_each_file fs cfg files results s = (inr r, s') ->
    forall row,
      In row (recovered_files r) ->
      In row (recovered_files results)
      \/ (In (row_original row) files /\ row_well_formed (CUTOFF cfg) row).
Proof.
  induction files as [|file rest IH]; intros results s r s'.
  - intros [= <- <-] row Hin; now left.
  - rewrite for_each_file_cons.
    destruct (loop_body fs cfg results file s) as [[e|r1] s1] eqn:Hbody;
      [discriminate|].
    intros Hrest row Hin.
    destruct (IH _ _ _ _ Hrest row Hin) as [Hin1|[Hin1 Hwf]].
    + apply loop_body_recovered in Hbody.
      destruct Hbody as [->|[->|(entries & info & chosen & Hsel & Hc & ->)]];
        try (now left).
      simpl in Hin1; apply in_app_or in Hin1.
      destruct Hin1 as [Hin1|[<-|[]]]; [now left|].
      right; split; [now left|].
      exact (row_of_well_formed _ _ _ _ _ Hsel Hc).
    + right; split; [now right | assumption].
Qed.

(** X8.  Every recovered row of a result that is returned is for a file of the
    input and is complete: it names the backup copied and the latest
    revision with the times their names carry, the backup's time is not
    after the cut-off nor after the latest time, the flag is set exactly
    when the latest time is after the cut-off, and the count is at least
    one.  No field [log_recovered_files] formats is [None]. *)
Theorem recovered_rows_complete :
  forall all_files (s : State World) r s' row,
    find_and_copy_backup fs cfg all_files s = (inr r, s') ->
    In row (recovered_files r) ->
    In (row_original row) all_files /\ row_well_formed (CUTOFF cfg) row.
Proof.
  intros all_files s r s' row Hrun Hin.
  destruct (for_each_file_rows _ _ _ _ _ Hrun row Hin) as [[]|H]; exact H.
Qed.

(** X9.  An error of [os.listdir] is not caught: when the backup directory of a
    file exists and cannot be listed, the loop ends with that error after
    the two calls, and the files after it are not looked at. *)
Theorem listdir_error_halts_run :
  forall results file rest (s : State World) e,
    fs_exists fs (backup_dir_of cfg file) (world s) = true ->
    fs_listdir fs (backup_dir_of cfg file) (world s) = inl e ->
    for_each_file fs cfg (file :: rest) results s =
    (inl e,
     after s (world s) [CallExists (backup_dir_of cfg file);
                        CallListdir (backup_dir_of cfg file)]).
Proof.
  intros results file rest s e Hex Hls.
  rewrite for_each_file_cons, loop_body_branches; cbv zeta.
  now rewrite Hex, Hls.
Qed.

(** X10.  An error of [os.makedirs] is not caught either, unlike an error of the
    copy: when the recovery directory of a file with a chosen backup cannot
    be created, the loop ends with that error, no copy is tried, and the
    files after it are not looked at. *)
Theorem makedirs_error_halts_run :
  forall results file rest (s : State World) entries info chosen e w1,
    fs_exists fs (backup_dir_of cfg file) (world s) = true ->
    fs_listdir fs (backup_dir_of cfg file) (world s) = inr entries ->
    get_backup_file_info (CUTOFF cfg) (backup_files_of file entries) = inr info ->
    backup_file info = Some chosen ->
    fs_makedirs fs (recovery_dir_of cfg file) (world s) = (inl e, w1) ->
    for_each_file fs cfg (file :: rest) results s =
    (inl e,
     after s w1 [CallExists (backup_dir_of cfg file);
                 CallListdir (backup_dir_of cfg file);
                 CallMakedirs (recovery_dir_of cfg file)]).
Proof.
  intros results file rest s entries info chosen e w1 Hex Hls Hsel Hchosen Hmk.
  rewrite for_each_file_cons, loop_body_branches; cbv zeta.
  rewrite Hex, Hls; cbn [negb].
  pose proof (chosen_needs_candidates _ _ _ _ Hsel Hchosen) as Hne.
  destruct (backup_files_of file entries) as [|b bs] eqn:Hfiles;
    [now contradiction Hne|].
  now rewrite Hsel, Hchosen, Hmk.
Qed.


(** X12.  When every candidate of a file parses, one of them is not after the
    cut-off, and the directory and the copy succeed, the round copies the
    newest candidate that is not after the cut-off (the first listed of
    those with that time) from the backup tree to the file's place in the
    recovery tree, and appends the row for it. *)
Theorem newest_within_cutoff_is_copied :
  forall results file (s : State World) entries w1,
    fs_exists fs (backup_dir_of cfg file) (world s) = true ->
    fs_listdir fs (backup_dir_of cfg file) (world s) = inr entries ->
    (forall g, In g (backup_files_of file entries) ->
               exists t, parse_timestamp g = inr t) ->
    (exists g t, In g (backup_files_of file entries)
                 /\ parse_timestamp g = inr t
                 /\ datetime.le t (CUTOFF cfg) = true) ->
    fs_makedirs fs (recovery_dir_of cfg file) (world s) = (inr tt, w1) ->
    (forall c, In c (backup_files_of file entries) ->
               fst (fs_copy2 fs (backup_path_of cfg file c)
                             (recovery_path_of cfg file) w1) = inr tt) ->
    exists info chosen tc,
      get_backup_file_info (CUTOFF cfg) (backup_files_of file entries) = inr info
      /\ backup_file info = Some chosen
      /\ first_max (keep_upto (CUTOFF cfg)) (backup_files_of file entries)
                   chosen tc
      /\ loop_body fs cfg results file s =
         (inr (append_recovered (row_of file info) results),
          after s
            (snd (fs_copy2 fs (backup_path_of cfg file chosen)
                           (recovery_path_of cfg file) w1))
            [CallExists (backup_dir_of cfg file);
             CallListdir (backup_dir_of cfg file);
             CallMakedirs (recovery_dir_of cfg file);
             CallCopy2 (backup_path_of cfg file chosen)
                       (recovery_path_of cfg file)]).
Proof.
  intros results file s entries w1 Hex Hls Hall (g & t & Hg & Hgp & Hgin)
         Hmk Hcp.
  destruct (backup_info_loop_all_parse (CUTOFF cfg) _
              (BackupFileInfo_init (backup_files_of file entries)) Hall)
    as [info Hsel].
  change (get_backup_file_info (CUTOFF cfg) (backup_files_of file entries)
          = inr info) in Hsel.
  destruct (backup_file info) as [chosen|] eqn:Hc.
  2: { exfalso.
       assert (Hbt : backup_time info = None).
       { destruct (backup_time info) as [tc|] eqn:Htc; [|reflexivity].
         destruct (chosen_time_slot _ _ _ _ Hsel Htc) as (f & Hf & _).
         congruence. }
       rewrite (no_chosen_all_outside _ _ _ Hsel Hbt g t Hg Hgp) in Hgin.
       discriminate. }
  destruct (chosen_slot _ _ _ _ Hsel Hc) as (tc & _ & Hmax).
  destruct (first_max_member _ _ _ _ Hmax) as (Hin & _ & _).
  exists info, chosen, tc.
  split; [assumption|]. split; [exact Hc|]. split; [assumption|].
  rewrite loop_body_branches; cbv zeta.
  rewrite Hex, Hls; cbn [negb].
  specialize (Hcp chosen Hin).
  destruct (backup_files_of file entries) as [|b bs] eqn:Hfiles;
    [destruct Hin|].
  rewrite Hsel, Hc, Hmk.
  destruct (fs_copy2 fs _ _ w1) as [[e|[]] w2]; simpl in Hcp;
    [discriminate | reflexivity].
Qed.



End OrchestratorEdges.

Lemma every_file_accounted_for_witness :
  exists r s',
    find_and_copy_backup disk_fs example_cfg
      ["ghost.txt"; "notes.txt"; "locked.txt"] (start example_disk) = (inr r, s')
    /\ List.length (missing_files r) = 1%nat
    /\ List.length (recovered_files r) = 1%nat
    /\ total_original r = 3
    /\ exists new,
         calls s' = (calls (start example_disk) ++ new)%list
         /\ (List.length (missing_files r) + List.length (recovered_files r)
             + copy_errors new = 3)%nat
         /\ copies new = (List.length (recovered_files r) + copy_errors new)%nat.
Proof.
  eexists; eexists.
  split; [reflexivity|].
  split; [reflexivity|].
  split; [reflexivity|].
  exact (every_file_accounted_for disk_fs example_cfg
           ["ghost.txt"; "notes.txt"; "locked.txt"] (start example_disk) _ _
           eq_refl).
Defined.

Lemma recovered_rows_complete_witness :
  In (row_original (row_of "notes.txt" notes_info)) ["ghost.txt"; "notes.txt"]
  /\ row_well_formed (CUTOFF example_cfg) (row_of "notes.txt" notes_info).
Proof.
  refine (recovered_rows_complete disk_fs example_cfg ["ghost.txt"; "notes.txt"]
            (start example_disk) _ _ (row_of "notes.txt" notes_info)
            eq_refl _).
  simpl; now left.
Defined.

Lemma listdir_error_halts_run_witness :
  for_each_file disk_fs example_cfg ("vault/x.txt" :: ["notes.txt"])
    (initial_results ["vault/x.txt"; "notes.txt"]) (start vault_disk)
  = (inl (OSError "cannot list"),
     after (start vault_disk) vault_disk
           [CallExists "bk/vault"; CallListdir "bk/vault"]).
Proof.
  exact (listdir_error_halts_run disk_fs example_cfg
           (initial_results ["vault/x.txt"; "notes.txt"]) "vault/x.txt"
           ["notes.txt"] (start vault_disk) (OSError "cannot list")
           eq_refl eq_refl).
Defined.

Lemma makedirs_error_halts_run_witness :
  for_each_file readonly_fs example_cfg ("notes.txt" :: ["ghost.txt"])
    (initial_results ["notes.txt"; "ghost.txt"]) (start example_disk)
  = (inl (OSError "cannot create"),
     after (start example_disk) example_disk
           [CallExists "bk/"; CallListdir "bk/"; CallMakedirs "recovery"]).
Proof.
  exact (makedirs_error_halts_run readonly_fs example_cfg
           (initial_results ["notes.txt"; "ghost.txt"]) "notes.txt"
           ["ghost.txt"] (start example_disk)
           (disk_entries_at example_disk "bk/") notes_info
           "notes~20240714-190000.txt" (OSError "cannot create") example_disk
           eq_refl eq_refl eq_refl eq_refl eq_refl).
Defined.


Lemma newest_within_cutoff_is_copied_witness :
  exists info chosen tc,
    get_backup_file_info (CUTOFF example_cfg)
      (backup_files_of "notes.txt" (disk_entries_at example_disk "bk/"))
    = inr info
    /\ backup_file info = Some chosen
    /\ first_max (keep_upto (CUTOFF example_cfg))
         (backup_files_of "notes.txt" (disk_entries_at example_disk "bk/"))
         chosen tc
    /\ loop_body disk_fs example_cfg (initial_results ["notes.txt"]) "notes.txt"
         (start example_disk)
       = (inr (append_recovered (row_of "notes.txt" info)
                                (initial_results ["notes.txt"])),
          after (start example_disk)
            (snd (fs_copy2 disk_fs (backup_path_of example_cfg "notes.txt" chosen)
                    (recovery_path_of example_cfg "notes.txt")
                    {| disk_dirs := ["bk/"; "recovery"];
                       disk_entries := disk_entries example_disk;
                       disk_unwritable := disk_unwritable example_disk |}))
            [CallExists (backup_dir_of example_cfg "notes.txt");
             CallListdir (backup_dir_of example_cfg "notes.txt");
             CallMakedirs (recovery_dir_of example_cfg "notes.txt");
             CallCopy2 (backup_path_of example_cfg "notes.txt" chosen)
                       (recovery_path_of example_cfg "notes.txt")]).
Proof.
  refine (newest_within_cutoff_is_copied disk_fs example_cfg
            (initial_results ["notes.txt"]) "notes.txt" (start example_disk)
            (disk_entries_at example_disk "bk/") _ eq_refl eq_refl _ _ eq_refl _).
  - intros g [<-|[<-|[<-|[]]]]; eexists; reflexivity.
  - exists "notes~20240714-120000.txt", (datetime.make 2024 7 14 12 0 0).
    repeat split; now left.
  - intros c _; reflexivity.
Defined.


(* ===================================================================== *)
(** * More of the filename codec *)
(* ===================================================================== *)

(** ** Searching and slicing strings *)

Lemma rfind_from_spec c s :
  forall i acc,
    Str.rfind_from c s i acc = acc
    \/ (i <= Str.rfind_from c s i acc < i + Z.of_nat (String.length s)).
Proof.
  induction s as [|a s IH]; intros i acc; simpl Str.rfind_from.
  - now left.
  - destruct (IH (i + 1) (if Ascii.eqb a c then i else acc)) as [->|H].
    + destruct (Ascii.eqb a c); [right|now left].
      simpl String.length; lia.
    + right; simpl String.length; lia.
Qed.

Lemma rfind_from_shift c s :
  forall i acc,
    Str.rfind_from c s i acc =
    if Str.rfind c s =? -1 then acc else i + Str.rfind c s.
Proof.
  unfold Str.rfind.
  induction s as [|a s IH]; intros i acc; simpl Str.rfind_from.
  - reflexivity.
  - rewrite (IH (i + 1)), (IH (0 + 1)).
    destruct (rfind_from_spec c s 0 (-1)) as [->|H].
    + simpl. destruct (Ascii.eqb a c); simpl; [f_equal; lia | reflexivity].
    + destruct (Z.eqb_spec (Str.rfind_from c s 0 (-1)) (-1)) as [E|E]; [lia|].
      destruct (Z.eqb_spec (0 + 1 + Str.rfind_from c s 0 (-1)) (-1)); lia.
Qed.

Lemma rfind_bounds c s : -1 <= Str.rfind c s < Z.of_nat (String.length s).
Proof.
  unfold Str.rfind; destruct (rfind_from_spec c s 0 (-1)) as [->|H]; lia.
Qed.

Lemma rfind_cons c a s :
  Str.rfind c (String a s) =
  if Str.rfind c s =? -1 then (if Ascii.eqb a c then 0 else -1)
  else 1 + Str.rfind c s.
Proof.
  unfold Str.rfind at 1; simpl Str.rfind_from.
  rewrite rfind_from_shift.
  destruct (Str.rfind c s =? -1); [reflexivity | lia].
Qed.

Lemma absent_cons c a s :
  absent c (String a s) <-> Ascii.eqb a c = false /\ absent c s.
Proof.
  unfold absent; rewrite rfind_cons.
  pose proof (rfind_bounds c s).
  destruct (Z.eqb_spec (Str.rfind c s) (-1)) as [E|E].
  - destruct (Ascii.eqb a c); split; intros H'; try easy; now destruct H'.
  - split; [lia | intros [_ H']; contradiction].
Qed.

Lemma rfind_app c a b :
  Str.rfind c (a ++ b) =
  if Str.rfind c b =? -1 then Str.rfind c a
  else Z.of_nat (String.length a) + Str.rfind c b.
Proof.
  induction a as [|x a IH]; simpl append.
  - destruct (Z.eqb_spec (Str.rfind c b) (-1)) as [->|E]; [reflexivity|].
    simpl String.length; lia.
  - rewrite !rfind_cons, IH.
    pose proof (rfind_bounds c b); pose proof (rfind_bounds c a).
    destruct (Z.eqb_spec (Str.rfind c b) (-1)) as [E|E].
    + reflexivity.
    + destruct (Z.eqb_spec (Z.of_nat (String.length a) + Str.rfind c b) (-1));
        [lia|]. simpl String.length; lia.
Qed.

Lemma absent_app c a b : absent c (a ++ b) <-> absent c a /\ absent c b.
Proof.
  unfold absent; rewrite rfind_app.
  pose proof (rfind_bounds c b); pose proof (rfind_bounds c a).
  destruct (Z.eqb_spec (Str.rfind c b) (-1)); split; try lia; intros []; lia.
Qed.

Lemma append_assoc (a b c : string) : (a ++ b) ++ c = a ++ (b ++ c).
Proof. induction a as [|x a IH]; simpl; [reflexivity | now rewrite IH]. Qed.

Lemma length_append (a b : string) :
  String.length (a ++ b) = (String.length a + String.length b)%nat.
Proof. induction a as [|x a IH]; simpl; [reflexivity | now rewrite IH]. Qed.

Lemma take_length_app a b : Str.take (String.length a) (a ++ b) = a.
Proof. induction a as [|x a IH]; simpl; [now destruct b | now rewrite IH]. Qed.

Lemma drop_length_app a b : Str.drop (String.length a) (a ++ b) = b.
Proof. induction a as [|x a IH]; simpl; [reflexivity | exact IH]. Qed.

(** The character at the index [rfind] returns, and none after it. *)
Lemma rfind_found c s :
  0 <= Str.rfind c s ->
  exists rest,
    Str.drop (Z.to_nat (Str.rfind c s)) s = String c rest /\ absent c rest.
Proof.
  induction s as [|a s IH]; intros Hpos.
  - cbv in Hpos; now contradiction Hpos.
  - rewrite rfind_cons in *.
    pose proof (rfind_bounds c s) as Hb.
    destruct (Z.eqb_spec (Str.rfind c s) (-1)) as [E|E].
    + destruct (Ascii.eqb_spec a c) as [->|Hne]; [|lia].
      exists s; simpl; split; [reflexivity | exact E].
    + destruct IH as (rest & Hd & Ha); [lia|].
      exists rest; split; [|assumption].
      replace (Z.to_nat (1 + Str.rfind c s))
        with (S (Z.to_nat (Str.rfind c s))) by lia.
      exact Hd.
Qed.

Lemma prefix_append a b : String.prefix a (a ++ b) = true.
Proof.
  induction a as [|x a IH]; simpl; [now destruct b|].
  destruct (ascii_dec x x) as [_|H]; [exact IH | now contradiction H].
Qed.

Lemma startswith_append a b : Str.startswith (a ++ b) a = true.
Proof. apply prefix_append. Qed.

Lemma endswith_append a b : Str.endswith (a ++ b) b = true.
Proof.
  unfold Str.endswith; rewrite length_append.
  destruct (Nat.leb_spec (String.length b) (String.length a + String.length b));
    [|lia].
  replace (String.length a + String.length b - String.length b)%nat
    with (String.length a) by lia.
  rewrite drop_length_app; apply String.eqb_refl.
Qed.

Lemma startswith_cons s c p :
  Str.startswith s (String c p) = true ->
  exists s', s = String c s' /\ Str.startswith s' p = true.
Proof.
  unfold Str.startswith; destruct s as [|a s]; simpl; [discriminate|].
  destruct (ascii_dec c a) as [->|]; [|discriminate].
  intros H; now exists s.
Qed.

Lemma drop_next i c s rest :
  Str.drop i s = String c rest -> Str.drop (S i) s = rest.
Proof.
  revert s; induction i as [|i IH]; intros [|a s]; simpl; try discriminate.
  - now intros [= _ ->].
  - apply IH.
Qed.

(** [basename] returns a name without separator. *)
Lemma basename_no_sep p : absent os_path.sep (os_path.basename p).
Proof.
  unfold os_path.basename.
  pose proof (rfind_bounds os_path.sep p) as Hb.
  destruct (Z.eq_dec (Str.rfind os_path.sep p) (-1)) as [E|E].
  - rewrite E; simpl; exact E.
  - destruct (rfind_found os_path.sep p) as (rest & Hd & Ha); [lia|].
    replace (Z.to_nat (Str.rfind os_path.sep p + 1))
      with (S (Z.to_nat (Str.rfind os_path.sep p))) by lia.
    now rewrite (drop_next _ _ _ _ Hd).
Qed.

Lemma absent_not_first c s : absent c s -> Str.startswith s (String c "") = false.
Proof.
  destruct s as [|a s]; [reflexivity|].
  intros H; apply absent_cons in H; destruct H as [Hne _].
  unfold Str.startswith; simpl.
  destruct (ascii_dec c a) as [->|]; [|reflexivity].
  now rewrite Ascii.eqb_refl in Hne.
Qed.

Lemma startswith_first c s : Str.startswith (String c s) (String c "") = true.
Proof.
  unfold Str.startswith; simpl.
  destruct (ascii_dec c c) as [_|H]; [now destruct s | now contradiction H].
Qed.

Lemma slice1_at_length a c b :
  Str.slice1 (String.length a) (a ++ String c b) = String c "".
Proof.
  unfold Str.slice1; rewrite drop_length_app; reflexivity.
Qed.

(** The loop of [_splitext] returns at the first character that is not a
    dot, if there is one before the last dot. *)
Lemma splitext_loop_finds p e d fuel :
  forall i j,
    (i <= j < i + fuel)%nat ->
    String.eqb (Str.slice1 j p) (String e "") = false ->
    os_path.splitext_loop p e d fuel (Z.of_nat i)
    = Some (Str.take (Z.to_nat d) p, Str.drop (Z.to_nat d) p).
Proof.
  induction fuel as [|fuel IH]; intros i j Hj Hne; [lia|].
  simpl os_path.splitext_loop. rewrite Nat2Z.id.
  destruct (String.eqb (Str.slice1 i p) (String e "")) eqn:Hi; simpl negb.
  - assert (i <> j) by (intros ->; congruence).
    replace (Z.of_nat i + 1) with (Z.of_nat (S i)) by lia.
    apply (IH (S i) j); [lia | assumption].
  - reflexivity.
Qed.

(** When the loop falls through, the character it started at is a dot. *)
Lemma splitext_loop_none_first p e d fuel i :
  os_path.splitext_loop p e d (S fuel) i = None ->
  Str.slice1 (Z.to_nat i) p = String e "".
Proof.
  simpl. destruct (String.eqb_spec (Str.slice1 (Z.to_nat i) p) (String e ""));
    simpl; [auto | discriminate].
Qed.

(** [os.path.splitext] on a name without separator: either nothing is split
    off, and the name has no dot or begins with one; or the name is cut at
    its last dot. *)
Lemma splitext_name_cases n :
  absent os_path.sep n ->
  (os_path.splitext n = (n, "")
   /\ (absent os_path.extsep n \/ exists n', n = String os_path.extsep n'))
  \/ (exists name rest,
        os_path.splitext n = (name, String os_path.extsep rest)
        /\ n = name ++ String os_path.extsep rest
        /\ absent os_path.extsep rest).
Proof.
  intros Hsep; unfold os_path.splitext, os_path._splitext.
  unfold absent in Hsep; cbv zeta; rewrite !Hsep.
  pose proof (rfind_bounds os_path.extsep n) as Hb.
  destruct (Z.gtb_spec (Str.rfind os_path.extsep n) (-1)) as [Hd|Hd].
  - destruct (rfind_found os_path.extsep n) as (rest & Hdrop & Hrest); [lia|].
    destruct (os_path.splitext_loop _ _ _ _ _) as [r|] eqn:Hloop.
    + right. apply splitext_loop_some in Hloop; subst r.
      exists (Str.take (Z.to_nat (Str.rfind os_path.extsep n)) n), rest.
      rewrite Hdrop; repeat split; [|assumption].
      rewrite <- Hdrop; symmetry; apply take_drop.
    + left; split; [reflexivity|]. right.
      replace (Str.rfind os_path.extsep n - (-1 + 1))
        with (Str.rfind os_path.extsep n) in Hloop by lia.
      destruct (Z.to_nat (Str.rfind os_path.extsep n)) as [|fuel] eqn:Hfuel.
      * simpl in Hdrop. now exists rest.
      * apply splitext_loop_none_first in Hloop. simpl in Hloop.
        unfold Str.slice1 in Hloop; simpl in Hloop.
        destruct n as [|a n']; [discriminate|].
        simpl in Hloop. destruct n'; injection Hloop as ->; eauto.
  - left; split; [reflexivity|]. left. unfold absent; lia.
Qed.

(** What [split_extension] returns for a name without separator, case by
    case: an undotted name whole; a name that begins with its only dots, as
    the extension; any other name cut at its last dot. *)
Lemma split_extension_cases n base ext :
  absent os_path.sep n ->
  split_extension n = (base, ext) ->
  (base = n /\ ext = "" /\ absent os_path.extsep n)
  \/ (base = "" /\ ext = n /\ exists n', n = String os_path.extsep n')
  \/ (exists rest, ext = String os_path.extsep rest
                   /\ n = base ++ ext /\ absent os_path.extsep rest).
Proof.
  intros Hsep; unfold split_extension.
  destruct (splitext_name_cases n Hsep)
    as [[-> Hshape]|(name & rest & -> & Hn & Hrest)].
  - simpl. destruct (Str.startswith n ".") eqn:Hdot; simpl.
    + intros [= <- <-]. right; left. repeat split.
      destruct Hshape as [Hno|Hyes]; [|exact Hyes].
      pose proof (absent_not_first _ _ Hno) as H.
      change (Str.startswith n "." = false) in H; congruence.
    + intros [= <- <-]. left. repeat split.
      destruct Hshape as [Hno|[n' ->]]; [exact Hno|].
      pose proof (startswith_first os_path.extsep n') as H.
      change (Str.startswith (String os_path.extsep n') "." = true) in H.
      congruence.
  - simpl. rewrite andb_false_r. intros [= <- <-].
    right; right; exists rest; repeat split; assumption.
Qed.

(** The extension [os.path.splitext] returns is empty or starts with a
    dot. *)
Lemma splitext_ext_shape p name e0 :
  os_path.splitext p = (name, e0) ->
  e0 = "" \/ exists rest, e0 = String os_path.extsep rest.
Proof.
  unfold os_path.splitext, os_path._splitext.
  destruct (Str.rfind os_path.extsep p >? Str.rfind os_path.sep p) eqn:Hgt;
    [|intros [= _ <-]; now left].
  destruct (os_path.splitext_loop _ _ _ _ _) as [r|] eqn:Hloop;
    [|intros [= _ <-]; now left].
  apply splitext_loop_some in Hloop; subst r.
  intros [= _ <-]; right.
  pose proof (rfind_bounds os_path.sep p).
  destruct (rfind_found os_path.extsep p) as (rest & -> & _); [lia|].
  now exists rest.
Qed.

(** X14.  The two parts [split_extension] returns make up the file name; the
    extension is empty or starts with a dot; and when it is empty the name
    does not start with a dot. *)
Theorem split_extension_parts :
  forall filename base ext,
    split_extension filename = (base, ext) ->
    base ++ ext = filename
    /\ (ext = "" \/ Str.startswith ext "." = true)
    /\ (ext = "" -> Str.startswith filename "." = false).
Proof.
  intros filename base ext; unfold split_extension.
  destruct (os_path.splitext filename) as [name e0] eqn:Hsplit.
  pose proof (_splitext_concat _ _ _ _ _ _ Hsplit) as Hcat.
  pose proof (splitext_ext_shape _ _ _ Hsplit) as Hshape.
  destruct (Str.startswith name ".") eqn:Hdot; simpl.
  - destruct Hshape as [->|[rest ->]]; simpl.
    + rewrite append_empty_r in Hcat; subst name.
      intros [= <- <-]; repeat split; [now right|].
      intros ->; discriminate Hdot.
    + intros [= <- <-]; repeat split; [assumption| |discriminate].
      right; apply (startswith_first os_path.extsep rest).
  - intros [= <- <-]; split; [assumption|].
    destruct Hshape as [->|[rest ->]].
    + split; [now left|]. intros _.
      rewrite append_empty_r in Hcat; now subst name.
    + split; [|discriminate].
      right; apply (startswith_first os_path.extsep rest).
Qed.

Lemma split_extension_parts_witness :
  "archive.tar" ++ ".gz" = "archive.tar.gz"
  /\ (".gz" = "" \/ Str.startswith ".gz" "." = true)
  /\ (".gz" = "" -> Str.startswith "archive.tar.gz" "." = false).
Proof.
  exact (split_extension_parts "archive.tar.gz" "archive.tar" ".gz" eq_refl).
Defined.

Lemma split_absent c s : absent c s -> Str.split c s = [s].
Proof.
  induction s as [|a s IH]; intros H; [reflexivity|].
  apply absent_cons in H; destruct H as [Hne Hs].
  simpl; rewrite Hne, (IH Hs); reflexivity.
Qed.

Lemma split_app_sep c a b :
  exists init, init <> [] /\ Str.split c (a ++ String c b)
                            = (init ++ Str.split c b)%list.
Proof.
  induction a as [|x a (init & Hne & IH)]; simpl.
  - rewrite Ascii.eqb_refl. exists [""]; split; [discriminate | reflexivity].
  - destruct (Ascii.eqb x c).
    + exists ("" :: init); split; [discriminate | now rewrite IH].
    + rewrite IH. destruct init as [|w ws]; [now contradiction Hne|].
      exists (String x w :: ws); split; [discriminate | reflexivity].
Qed.

Lemma last_after (init l : list string) d :
  l <> [] -> List.last (init ++ l) d = List.last l d.
Proof.
  intros Hne; induction init as [|x init IH]; [reflexivity|].
  simpl app. destruct (init ++ l)%list eqn:E.
  - destruct init; [now contradiction Hne | discriminate].
  - simpl; simpl in IH; exact IH.
Qed.

(** The text after the last ['~'] of [a~tag] is [tag], when [tag] has no
    ['~'] of its own. *)
Lemma split_last_tag c a tag :
  absent c tag -> Str.last_item (Str.split c (a ++ String c tag)) = tag.
Proof.
  intros Htag; unfold Str.last_item.
  destruct (split_app_sep c a tag) as (init & _ & ->).
  rewrite last_after, (split_absent _ _ Htag); [reflexivity|].
  rewrite (split_absent _ _ Htag); discriminate.
Qed.

(** [os.path.splitext] cuts [A.rest] before the dot when [rest] has no dot,
    nothing holds a separator, and [A] holds a character that is not a
    dot. *)
Lemma splitext_tagged A rest j :
  absent os_path.sep A ->
  absent os_path.sep rest ->
  absent os_path.extsep rest ->
  (j < String.length A)%nat ->
  String.eqb (Str.slice1 j (A ++ String os_path.extsep rest))
             (String os_path.extsep "") = false ->
  os_path.splitext (A ++ String os_path.extsep rest)
  = (A, String os_path.extsep rest).
Proof.
  intros HsA Hsr Her Hj Hnondot.
  unfold os_path.splitext, os_path._splitext; cbv zeta.
  assert (Hsep : Str.rfind os_path.sep (A ++ String os_path.extsep rest) = -1).
  { apply absent_app; split; [assumption|].
    apply absent_cons; split; [reflexivity | assumption]. }
  assert (Hdot : Str.rfind os_path.extsep (A ++ String os_path.extsep rest)
                 = Z.of_nat (String.length A)).
  { rewrite rfind_app, rfind_cons.
    unfold absent in Her; rewrite Her; simpl; lia. }
  rewrite Hsep, Hdot.
  destruct (Z.gtb_spec (Z.of_nat (String.length A)) (-1)) as [_|]; [|lia].
  replace (Z.of_nat (String.length A) - (-1 + 1))
    with (Z.of_nat (String.length A)) by lia.
  rewrite Nat2Z.id.
  change (-1 + 1) with (Z.of_nat 0).
  rewrite (splitext_loop_finds _ _ _ (String.length A) 0 j); try assumption;
    [|lia].
  now rewrite Nat2Z.id, take_length_app, drop_length_app.
Qed.

Lemma prefix_length a b :
  String.prefix a b = true -> (String.length a <= String.length b)%nat.
Proof.
  revert b; induction a as [|x a IH]; intros [|y b]; simpl; try lia;
    try discriminate.
  destruct (ascii_dec x y); [|discriminate].
  intros H; apply IH in H; lia.
Qed.

Lemma prefix_app_same a b c :
  String.prefix (a ++ b) (a ++ c) = String.prefix b c.
Proof.
  induction a as [|x a IH]; simpl; [reflexivity|].
  destruct (ascii_dec x x) as [_|H]; [exact IH | now contradiction H].
Qed.

(** ** Versions of a file among the entries of its backup directory *)

(** X15.  Every entry named the way Syncthing names a version of [file], that is
    the base of the file name, ['~'], any tag, and the extension of the file
    name, is kept as a candidate for [file]. *)
Theorem versions_are_candidates :
  forall file base ext tag entries,
    split_extension (os_path.basename file) = (base, ext) ->
    In (base ++ "~" ++ tag ++ ext) entries ->
    In (base ++ "~" ++ tag ++ ext) (backup_files_of file entries).
Proof.
  intros file base ext tag entries Hsplit Hin.
  unfold backup_files_of; rewrite Hsplit; cbn [fst snd].
  apply filter_In; split; [assumption|].
  unfold matches_backup; apply andb_true_intro; split.
  - rewrite <- (append_assoc base "~" (tag ++ ext)).
    apply startswith_append.
  - replace (base ++ "~" ++ tag ++ ext) with ((base ++ "~" ++ tag) ++ ext).
    + apply endswith_append.
    + now rewrite !append_assoc.
Qed.

Lemma versions_are_candidates_witness :
  In ("archive.tar" ++ "~" ++ "20240714-120000" ++ ".gz")
     (backup_files_of "docs/archive.tar.gz"
        ["archive.tar.gz"; "archive.tar~20240714-120000.gz"]).
Proof.
  apply (versions_are_candidates "docs/archive.tar.gz" "archive.tar" ".gz"
           "20240714-120000"
           ["archive.tar.gz"; "archive.tar~20240714-120000.gz"] eq_refl).
  simpl; right; now left.
Defined.

(** X16.  The name of the file itself is never one of its candidates, whatever the
    backup directory lists. *)
Theorem own_name_not_a_candidate :
  forall file entries,
    ~ In (os_path.basename file) (backup_files_of file entries).
Proof.
  intros file entries Hin.
  unfold backup_files_of in Hin; apply filter_In in Hin.
  destruct Hin as [_ Hmatch].
  destruct (split_extension (os_path.basename file)) as [base ext] eqn:Hsplit.
  cbn [fst snd] in Hmatch.
  unfold matches_backup in Hmatch; apply andb_prop in Hmatch.
  destruct Hmatch as [Hstart _]; unfold Str.startswith in Hstart.
  destruct (split_extension_cases _ _ _ (basename_no_sep file) Hsplit)
    as [(-> & -> & _)|[(-> & -> & n' & Hn)|(rest & -> & Hn & _)]].
  - apply prefix_length in Hstart; rewrite length_append in Hstart.
    simpl in Hstart; lia.
  - rewrite Hn in Hstart; simpl in Hstart.
    destruct (ascii_dec "~" os_path.extsep) as [E|_]; discriminate.
  - rewrite Hn, prefix_app_same in Hstart at 1; simpl in Hstart.
    destruct (ascii_dec "~" os_path.extsep) as [E|_]; discriminate.
Qed.

(** X17.  A version of a file named the Syncthing way is read back as it was
    written: for a tag without ['.'], ['~'] and ['/'], the name
    [base~tag.ext] splits into [base~tag] and the extension, and its
    timestamp is what [strptime] makes of the tag.  This needs the file
    name not to begin with two dots: the extension of such a name, when it
    has no other dot, is the whole name. *)
Theorem version_name_timestamp :
  forall file base ext tag,
    split_extension (os_path.basename file) = (base, ext) ->
    Str.rfind "." ext <= 0 ->
    absent "." tag -> absent "~" tag -> absent "/" tag ->
    split_extension (base ++ "~" ++ tag ++ ext) = (base ++ "~" ++ tag, ext)
    /\ parse_timestamp (base ++ "~" ++ tag ++ ext) = datetime.strptime tag.
Proof.
  intros file base ext tag Hsplit Hone Hdot Htilde Hsep.
  pose proof (basename_no_sep file) as Hn_sep.
  assert (Hgoal : split_extension (base ++ "~" ++ tag ++ ext)
                  = (base ++ "~" ++ tag, ext)).
  { destruct (split_extension_cases _ _ _ Hn_sep Hsplit)
      as [(-> & -> & Hnodot)|Hcut].
    - (* no dot in the name *)
      rewrite append_empty_r.
      set (W := os_path.basename file ++ "~" ++ tag).
      assert (HWdot : absent os_path.extsep W).
      { apply absent_app; split; [assumption|].
        apply absent_cons; split; [reflexivity | assumption]. }
      assert (HWsep : absent os_path.sep W).
      { apply absent_app; split; [assumption|].
        apply absent_cons; split; [reflexivity | assumption]. }
      unfold split_extension, os_path.splitext, os_path._splitext; cbv zeta.
      unfold absent in HWdot, HWsep; rewrite HWdot, HWsep; simpl.
      pose proof (absent_not_first _ _ HWdot) as Hfirst.
      change (Str.startswith W "." = false) in Hfirst.
      now rewrite Hfirst.
    - (* the extension starts with the only dot it holds *)
      assert (Hshape : exists rest,
                 ext = String os_path.extsep rest
                 /\ absent os_path.extsep rest
                 /\ absent os_path.sep base /\ absent os_path.sep rest).
      { destruct Hcut as [(-> & -> & n' & Hn)|(rest & -> & Hn & Hrest)].
        - exists n'; rewrite Hn in *.
          apply absent_cons in Hn_sep; destruct Hn_sep as [_ Hn'].
          repeat split; try assumption.
          + change (Str.rfind os_path.extsep (String os_path.extsep n') <= 0)
              in Hone.
            rewrite rfind_cons in Hone.
            pose proof (rfind_bounds os_path.extsep n').
            unfold absent.
            destruct (Z.eqb_spec (Str.rfind os_path.extsep n') (-1)); lia.
        - exists rest; rewrite Hn in Hn_sep.
          apply absent_app in Hn_sep; destruct Hn_sep as [Hb Hr].
          apply absent_cons in Hr; destruct Hr as [_ Hr].
          repeat split; assumption. }
      destruct Hshape as (rest & -> & Hrest & Hbase_sep & Hrest_sep).
      replace (base ++ "~" ++ tag ++ String os_path.extsep rest)
        with ((base ++ "~" ++ tag) ++ String os_path.extsep rest)
        by now rewrite !append_assoc.
      unfold split_extension.
      rewrite (splitext_tagged (base ++ "~" ++ tag) rest (String.length base)).
      + now rewrite andb_false_r.
      + apply absent_app; split; [assumption|].
        apply absent_cons; split; [reflexivity | assumption].
      + assumption.
      + assumption.
      + rewrite length_append; simpl; lia.
      + rewrite append_assoc.
        change ("~" ++ tag) with (String "~" tag).
        change (String "~" tag ++ String os_path.extsep rest)
          with (String "~" (tag ++ String os_path.extsep rest)).
        now rewrite slice1_at_length. }
  split; [exact Hgoal|].
  unfold parse_timestamp; rewrite Hgoal.
  change (base ++ "~" ++ tag) with (base ++ String "~" tag).
  now rewrite split_last_tag.
Qed.

Lemma version_name_timestamp_witness :
  split_extension ("archive.tar" ++ "~" ++ "20240714-120000" ++ ".gz")
  = ("archive.tar" ++ "~" ++ "20240714-120000", ".gz")
  /\ parse_timestamp ("archive.tar" ++ "~" ++ "20240714-120000" ++ ".gz")
     = datetime.strptime "20240714-120000".
Proof.
  apply (version_name_timestamp "docs/archive.tar.gz" "archive.tar" ".gz"
           "20240714-120000" eq_refl); [discriminate | reflexivity ..].
Defined.

Example two_leading_dots_not_read_back :
  split_extension "..bashrc" = ("", "..bashrc")
  /\ split_extension "~20240714-120000..bashrc"
     = ("~20240714-120000.", ".bashrc")
  /\ parse_timestamp "~20240714-120000..bashrc"
     = inl (ValueError "unconverted data remains").
Proof. repeat split; reflexivity. Qed.

(* ===================================================================== *)
(** * The reports and [main] *)
(* ===================================================================== *)

Lemma split_before_sep c a b :
  absent c a -> Str.split c (a ++ String c b) = a :: Str.split c b.
Proof.
  induction a as [|x a IH]; intros H; simpl.
  - now rewrite Ascii.eqb_refl.
  - apply absent_cons in H; destruct H as [Hne Ha].
    now rewrite Hne, (IH Ha).
Qed.

(** X18.  The text of the missing-files log and of the possibly-corrupted log
    reads back as the list it was written from: when no path holds a
    newline, splitting the text at newlines gives the paths, in order,
    and an empty last piece. *)
Theorem lines_text_reads_back :
  forall paths,
    (forall p, In p paths -> absent newline p) ->
    Str.split newline (lines_text paths) = (paths ++ [""])%list.
Proof.
  induction paths as [|p paths IH]; intros Hclean; [reflexivity|].
  simpl lines_text; rewrite split_before_sep by (apply Hclean; now left).
  rewrite IH; [reflexivity|].
  intros q Hq; apply Hclean; now right.
Qed.

Lemma lines_text_reads_back_witness :
  Str.split newline (lines_text ["ghost.txt"; "sub/x.txt"])
  = (["ghost.txt"; "sub/x.txt"] ++ [""])%list.
Proof.
  apply (lines_text_reads_back ["ghost.txt"; "sub/x.txt"]).
  intros p [<-|[<-|[]]]; reflexivity.
Defined.

Lemma written_app cs cs' : written (cs ++ cs') = (written cs ++ written cs')%list.
Proof. unfold written; apply flat_map_app. Qed.

Lemma written_loop (cs : list Call) : written (map MainLoop cs) = [].
Proof. induction cs as [|c cs IH]; [reflexivity | exact IH]. Qed.

(** Rows that are complete are all formatted. *)
Lemma recovered_dicts_complete strftime cutoff rows :
  (forall row, In row rows -> row_well_formed cutoff row) ->
  exists dicts,
    recovered_dicts strftime rows = (dicts, None)
    /\ List.length dicts = List.length rows.
Proof.
  induction rows as [|row rows IH]; intros Hwf.
  - now exists [].
  - destruct IH as (dicts & Hd & Hlen); [intros r Hr; apply Hwf; now right|].
    pose proof (Hwf row (or_introl eq_refl)) as Hrow.
    destruct row as [[[[[[orig bak] bak_time] n] out_limit] last] last_time].
    destruct Hrow as (chosen & tc & latest & tl & -> & -> & -> & -> & _).
    simpl; rewrite Hd.
    eexists; split; [reflexivity | simpl; now rewrite Hlen].
Qed.

Section MainProperties.

Context {World : Type}.
Variable plat : Platform World.
Variable mc : MainConfig.

(** The rows of a result the loop returned are all formatted. *)
Lemma loop_rows_formatted all_files (s : State World) results s' :
  find_and_copy_backup (plat_fs plat) (loop_cfg mc) all_files s = (inr results, s') ->
  exists dicts,
    recovered_dicts (plat_strftime plat) (recovered_files results) = (dicts, None)
    /\ List.length dicts = List.length (recovered_files results).
Proof.
  intros Hrun.
  apply (recovered_dicts_complete _ (CUTOFF (loop_cfg mc))).
  intros row Hin.
  destruct (for_each_file_rows _ _ _ _ _ _ _ Hrun row Hin) as [[]|[_ H]].
  exact H.
Qed.

(** X19.  When the corrupted directory or the backup directory is not a
    directory, [main] ends with exit status 1 having only tested the
    directories and logged the error: nothing is created, walked, copied or
    written, and the world is as it was. *)
Theorem main_stops_on_bad_directory :
  forall w,
    plat_isdir plat (CORRUPTED_DIR mc) w = false
    \/ plat_isdir plat (BACKUP_DIR (loop_cfg mc)) w = false ->
    exists cs,
      main plat mc w = (Exited 1, (w, cs))
      /\ written cs = []
      /\ forall c, In c cs ->
                   (exists path, c = MainIsdir path)
                   \/ (exists msg, c = MainLogError msg).
Proof.
  intros w Hbad.
  unfold main, main_steps, mbind, check_directory_exists, main_call, exit;
    simpl.
  destruct (plat_isdir plat (CORRUPTED_DIR mc) w) eqn:Hc; simpl.
  - destruct Hbad as [Hbad|Hbad]; [discriminate|]. rewrite Hbad; simpl.
    eexists; split; [reflexivity|]. split; [reflexivity|].
    intros c [<-|[<-|[<-|[]]]]; eauto.
  - eexists; split; [reflexivity|]. split; [reflexivity|].
    intros c [<-|[<-|[]]]; eauto.
Qed.

(** X20.  When the loop ends with an exception, [main] ends with it and no report
    file is written: not the CSV of what was recovered before, and not the
    list of what was found missing. *)
Theorem loop_error_leaves_no_report :
  forall w w1 e s2,
    plat_isdir plat (CORRUPTED_DIR mc) w = true ->
    plat_isdir plat (BACKUP_DIR (loop_cfg mc)) w = true ->
    fs_makedirs (plat_fs plat) (RECOVERY_DIR (loop_cfg mc)) w = (inr tt, w1) ->
    find_and_copy_backup (plat_fs plat) (loop_cfg mc)
      (plat_walk plat (CORRUPTED_DIR mc) w1) (start w1) = (inl e, s2) ->
    exists cs,
      main plat mc w = (Raised (FromException e), (world s2, cs))
      /\ written cs = [].
Proof.
  intros w w1 e s2 Hc Hb Hmk Hloop.
  unfold main, main_steps, mbind, check_directory_exists, main_call, exit,
    from_loop, get_all_files, ensure_directory_exists, mret.
  cbn -[find_and_copy_backup]; rewrite Hc.
  cbn -[find_and_copy_backup]; rewrite Hb.
  cbn -[find_and_copy_backup]; rewrite Hmk.
  cbn -[find_and_copy_backup]; rewrite Hloop.
  eexists; split; [reflexivity|].
  change (written (map MainLoop (calls s2)) = []); apply written_loop.
Qed.

(** X21.  However [main] ends, it is in one of three ways.  It exits with a
    status, and then nothing was written.  Or an exception of the loop or of
    a file system call leaves it; formatting a recovered row never raises,
    because the loop only appends rows with both times set.  Or it returns,
    and then the loop returned a result and exactly three reports were
    written, in this order: the missing-files log with the missing list, one
    path a line; the recovered-files table with one row for each recovered
    row; and the possibly-corrupted log, which is empty. *)
Theorem main_outcomes :
  forall w out w' cs,
    main plat mc w = (out, (w', cs)) ->
    (exists status, out = Exited status /\ written cs = [])
    \/ (exists e, out = Raised (FromException e))
    \/ (out = Returned
        /\ exists w1 results s2 dicts,
             find_and_copy_backup (plat_fs plat) (loop_cfg mc)
               (plat_walk plat (CORRUPTED_DIR mc) w1) (start w1)
             = (inr results, s2)
             /\ List.length dicts = List.length (recovered_files results)
             /\ written cs =
                [(MISSING_FILES_LOG mc,
                  TextReport (lines_text (missing_files results)));
                 (RECOVERED_FILES_CSV mc, CsvReport fieldnames dicts);
                 (POSSIBLY_CORRUPTED_LOG mc, TextReport "")]).
Proof.
  intros w out w' cs.
  unfold main, main_steps, mbind, check_directory_exists, main_call, exit,
    from_loop, get_all_files, ensure_directory_exists, mret,
    log_missing_files, log_recovered_files, log_possibly_corrupted_files,
    write_report.
  cbn -[find_and_copy_backup recovered_dicts lines_text].
  destruct (plat_isdir plat (CORRUPTED_DIR mc) w);
    cbn -[find_and_copy_backup recovered_dicts lines_text].
  2: { intros [= <- <- <-]; left; eexists; split; reflexivity. }
  destruct (plat_isdir plat (BACKUP_DIR (loop_cfg mc)) w);
    cbn -[find_and_copy_backup recovered_dicts lines_text].
  2: { intros [= <- <- <-]; left; eexists; split; reflexivity. }
  destruct (fs_makedirs (plat_fs plat) (RECOVERY_DIR (loop_cfg mc)) w)
    as [[e|u] w1]; cbn -[find_and_copy_backup recovered_dicts lines_text].
  { intros [= <- <- <-]; right; left; eauto. }
  destruct (find_and_copy_backup (plat_fs plat) (loop_cfg mc)
              (plat_walk plat (CORRUPTED_DIR mc) w1) (start w1))
    as [[e|results] s2] eqn:Hloop;
    cbn -[find_and_copy_backup recovered_dicts lines_text].
  { intros [= <- <- <-]; right; left; eauto. }
  destruct (fs_makedirs (plat_fs plat) (LOGS_DIR mc) (world s2))
    as [[e|u'] w3]; cbn -[find_and_copy_backup recovered_dicts lines_text].
  { intros [= <- <- <-]; right; left; eauto. }
  destruct (plat_write plat (MISSING_FILES_LOG mc) _ w3) as [[e|u''] w4];
    cbn -[find_and_copy_backup recovered_dicts lines_text].
  { intros [= <- <- <-]; right; left; eauto. }
  destruct (loop_rows_formatted _ _ _ _ Hloop) as (dicts & Hd & Hlen).
  rewrite Hd; unfold mbind, mret;
    cbn -[find_and_copy_backup recovered_dicts lines_text].
  destruct (plat_write plat (RECOVERED_FILES_CSV mc) _ w4) as [[e|u'''] w5];
    cbn -[find_and_copy_backup recovered_dicts lines_text].
  { intros [= <- <- <-]; right; left; eauto. }
  rewrite (possibly_corrupted_never_filled _ _ _ _ _ _ Hloop).
  destruct (plat_write plat (POSSIBLY_CORRUPTED_LOG mc) _ w5) as [[e|u''''] w6];
    cbn -[find_and_copy_backup recovered_dicts lines_text].
  { intros [= <- <- <-]; right; left; eauto. }
  intros [= <- <- <-]; right; right; split; [reflexivity|].
  exists w1, results, s2, dicts; repeat split; try assumption.
  lazymatch goal with
  | |- written (?a :: ?b :: ?c :: ?d :: ?rest) = ?reports =>
      change (written ([a; b; c; d] ++ rest) = reports)
  end.
  rewrite !written_app, !written_loop; reflexivity.
Qed.

End MainProperties.

Lemma main_stops_on_bad_directory_witness :
  exists cs,
    main (example_platform disk_fs ["notes.txt"])
         {| loop_cfg := example_cfg; CORRUPTED_DIR := ""; LOGS_DIR := "logs" |}
         example_disk
    = (Exited 1, (example_disk, cs))
    /\ written cs = []
    /\ forall c, In c cs ->
                 (exists path, c = MainIsdir path)
                 \/ (exists msg, c = MainLogError msg).
Proof.
  apply (main_stops_on_bad_directory (example_platform disk_fs ["notes.txt"])
           {| loop_cfg := example_cfg; CORRUPTED_DIR := ""; LOGS_DIR := "logs" |}
           example_disk).
  left; reflexivity.
Defined.

Lemma loop_error_leaves_no_report_witness :
  exists cs,
    main (example_platform disk_fs ["notes.txt"; "todo.txt"]) example_main_cfg
         example_disk
    = (Raised (FromException (ValueError "time data does not match format")),
       ({| disk_dirs := ["bk/"; "recovery"];
           disk_entries := disk_entries example_disk;
           disk_unwritable := disk_unwritable example_disk |}, cs))
    /\ written cs = [].
Proof.
  exact (loop_error_leaves_no_report
           (example_platform disk_fs ["notes.txt"; "todo.txt"]) example_main_cfg
           example_disk
           {| disk_dirs := ["bk/"; "recovery"];
              disk_entries := disk_entries example_disk;
              disk_unwritable := disk_unwritable example_disk |}
           (ValueError "time data does not match format") _
           eq_refl eq_refl eq_refl eq_refl).
Defined.

Lemma main_outcomes_witness :
  let run := main (example_platform disk_fs ["ghost.txt"; "notes.txt"])
                  example_main_cfg example_disk in
  fst run = Returned
  /\ ((exists status, fst run = Exited status /\ written (snd (snd run)) = [])
      \/ (exists e, fst run = Raised (FromException e))
      \/ (fst run = Returned
          /\ exists w1 results s2 dicts,
               find_and_copy_backup disk_fs example_cfg
                 ["ghost.txt"; "notes.txt"] (start w1)
               = (inr results, s2)
               /\ List.length dicts = List.length (recovered_files results)
               /\ written (snd (snd run)) =
                  [("logs/missing-files.txt",
                    TextReport (lines_text (missing_files results)));
                   ("logs/recovered-files.csv", CsvReport fieldnames dicts);
                   ("logs/possibly-corrupted-file-backups.txt",
                    TextReport "")])).
Proof.
  intros run; split; [reflexivity|].
  exact (main_outcomes (example_platform disk_fs ["ghost.txt"; "notes.txt"])
           example_main_cfg example_disk (fst run) (fst (snd run))
           (snd (snd run)) eq_refl).
Defined.

Lemma selector_returns_iff_all_parse_witness :
  ((exists bak, get_backup_file_info source_cutoff notes_backups = inr bak)
   <-> (forall g, In g notes_backups -> exists t, parse_timestamp g = inr t))
  /\ (forall e,
        get_backup_file_info source_cutoff notes_backups = inl e
        <-> exists pre bad post,
              notes_backups = (pre ++ bad :: post)%list
              /\ (forall g, In g pre -> exists t, parse_timestamp g = inr t)
              /\ parse_timestamp bad = inl e).
Proof.
  exact (selector_returns_iff_all_parse source_cutoff notes_backups).
Defined.

Lemma own_name_not_a_candidate_witness :
  ~ In (os_path.basename "docs/notes.txt")
       (backup_files_of "docs/notes.txt"
          ["notes.txt"; "notes~20240714-120000.txt"]).
Proof.
  exact (own_name_not_a_candidate "docs/notes.txt"
           ["notes.txt"; "notes~20240714-120000.txt"]).
Defined.
